(** * The Supabase data-access client of grannymail

    A shallow embedding of [src/chatbot/grannymail/db/supaclient.py]:
    the class [SupabaseClient] with its lookup, insert, update and delete
    wrappers and its blob upload, run against a model of the remote tables
    and of the storage bucket that records every remote call. *)

From stdpp Require Import gmap strings list fin_maps pretty.
From Stdlib Require Import ZArith Lia.
From Stdlib.Strings Require Import Byte.

(** ** Python values and remote rows *)

(** The column values the client handles ([str | float | int] and [None]);
    floats play no part in the client's logic and are left out. *)
Inductive value :=
| VNone
| VStr (s : string)
| VInt (z : Z).

Global Instance value_eq_dec : EqDecision value.
Proof. solve_decision. Defined.

(** [type(v).__name__] *)
Definition type_name (v : value) : string :=
  match v with
  | VNone => "NoneType"
  | VStr _ => "str"
  | VInt _ => "int"
  end.

(** A remote row, and every [dict] the client sends: column name to value. *)
Abbreviation row := (gmap string value).

(** ** Exceptions *)

(** The places where the client raises [ValueError]; the constructor stands
    for the message text. *)
Inductive value_error :=
| NotAList
| MoreThanOne (field_name : string) (field_value : value)
| NotADataTable
| NoUniqueFields
| NoDeletionValue (deletion_key : string)
| MimeNotSupported (mime_type : string)
| MissingField (owner field : string).

Inductive exn :=
| NoEntryFoundError (table key : string) (data : value)
| DuplicateEntryError
| ValueError (why : value_error)
| AttributeError (name : string)
| TypeError
| IndexError
| AssertionError.

Inductive result (A : Type) :=
| Ok (a : A)
| Raise (e : exn).
Arguments Ok {A} a.
Arguments Raise {A} e.

(** ** The world the client talks to *)

Record datetime := {
  year : N; month : N; day : N;
  hour : N; minute : N; second : N;
  microsecond : N
}.

(** One request sent to the remote side. *)
Inductive call :=
| CSelect (table key : string) (v : value)
| CInsert (table : string) (r : row)
| CUpdate (table : string) (changes : row) (key : string) (v : value)
| CDelete (table key : string) (v : value)
| CUpload (bucket path : string) (file : list byte) (content_type : string).

Record world := {
  tables : gmap string (list row);
  storage : gmap (string * string) (list byte * string);
  next_id : Z;
  utc_clock : datetime;    (* what [datetime.utcnow()] reads *)
  local_clock : datetime;  (* what [datetime.now()] reads *)
  calls : list call        (* requests issued so far, oldest first *)
}.

Definition table_rows (t : string) (w : world) : list row :=
  default [] (tables w !! t).

Definition log (c : call) (w : world) : world :=
  {| tables := tables w; storage := storage w; next_id := next_id w;
     utc_clock := utc_clock w; local_clock := local_clock w;
     calls := calls w ++ [c] |}.

Definition set_table (t : string) (rows : list row) (w : world) : world :=
  {| tables := <[t := rows]> (tables w); storage := storage w;
     next_id := next_id w;
     utc_clock := utc_clock w; local_clock := local_clock w;
     calls := calls w |}.

Definition bump_id (w : world) : world :=
  {| tables := tables w; storage := storage w; next_id := (next_id w + 1)%Z;
     utc_clock := utc_clock w; local_clock := local_clock w;
     calls := calls w |}.

Definition put_blob (bucket path : string) (file : list byte) (ct : string)
    (w : world) : world :=
  {| tables := tables w;
     storage := <[(bucket, path) := (file, ct)]> (storage w);
     next_id := next_id w;
     utc_clock := utc_clock w; local_clock := local_clock w;
     calls := calls w |}.

(** ** Computations: state passing with exceptions

    A raised exception keeps the world as it was when it was raised: the
    remote calls made before it are not undone. *)

Definition M (A : Type) : Type := world -> result A * world.

Definition ret {A} (a : A) : M A := fun w => (Ok a, w).

Definition raise {A} (e : exn) : M A := fun w => (Raise e, w).

Definition bind {A B} (m : M A) (k : A -> M B) : M B :=
  fun w =>
    match m w with
    | (Ok a, w') => k a w'
    | (Raise e, w') => (Raise e, w')
    end.

Definition lift {A} (r : result A) : M A := fun w => (r, w).

Notation "'let!' x ':=' m 'in' k" := (bind m (fun x => k))
  (at level 10, x name, m at level 200, k at level 200,
   format "'[v' 'let!'  x  ':='  m  'in' '/' k ']'").

(** [for x in l: body x] *)
Fixpoint for_each {A} (l : list A) (body : A -> M unit) : M unit :=
  match l with
  | [] => ret tt
  | x :: l' => let! _ := body x in for_each l' body
  end.

(** The exception a run ended with, if any. *)
Definition raised {A} (out : result A * world) : option exn :=
  match out.1 with
  | Ok _ => None
  | Raise e => Some e
  end.

(** ** The remote table driver and the blob store

    The hosted database and bucket, as the interface section of the
    specification describes them: select with an equality filter, insert
    returning the stored row, update and delete with an equality filter
    returning the rows they touched, and upload by path. *)

Definition row_matches (key : string) (v : value) (r : row) : Prop :=
  r !! key = Some v.

Global Instance row_matches_dec key v r : Decision (row_matches key v r).
Proof. unfold row_matches. apply _. Defined.

(** [client.table(t).select("*").eq(key, v).execute().data] *)
Definition select_eq (t key : string) (v : value) : M (list row) :=
  fun w => (Ok (filter (row_matches key v) (table_rows t w)),
            log (CSelect t key v) w).

(** [client.table(t).update(changes).eq(key, v).execute().data] *)
Definition update_eq (t : string) (changes : row) (key : string) (v : value)
    : M (list row) :=
  fun w =>
    let rows := table_rows t w in
    let rows' :=
      (fun r => if decide (row_matches key v r) then changes ∪ r else r)
        <$> rows in
    (Ok ((fun r => changes ∪ r) <$> filter (row_matches key v) rows),
     log (CUpdate t changes key v) (set_table t rows' w)).

(** [client.table(t).delete().eq(key, v).execute().data] *)
Definition delete_eq (t key : string) (v : value) : M (list row) :=
  fun w =>
    let rows := table_rows t w in
    (Ok (filter (row_matches key v) rows),
     log (CDelete t key v)
       (set_table t (filter (fun r => ¬ row_matches key v r) rows) w)).

(** [client.storage.from_(bucket).upload(file=…, path=…, file_options=…)];
    a second upload to the same path replaces the first. *)
Definition storage_upload (bucket path : string) (file : list byte)
    (content_type : string) : M unit :=
  fun w => (Ok tt,
            log (CUpload bucket path file content_type)
              (put_blob bucket path file content_type w)).

(** [datetime.utcnow()] and [datetime.now()] *)
Definition utcnow : M datetime := fun w => (Ok (utc_clock w), w).
Definition now : M datetime := fun w => (Ok (local_clock w), w).

(** ** Formatting time *)

Local Open Scope N_scope.

Definition digit (n : N) : string :=
  String (Ascii.ascii_of_N (48 + n mod 10)) "".

Definition pad2 (n : N) : string := digit (n / 10) +:+ digit n.

Definition pad4 (n : N) : string :=
  digit (n / 1000) +:+ digit (n / 100) +:+ pad2 n.

Definition pad6 (n : N) : string :=
  digit (n / 100000) +:+ digit (n / 10000) +:+ pad4 n.

(** [d.strftime('%Y-%m-%d_%H-%M-%S')] *)
Definition strftime_path (d : datetime) : string :=
  pad4 (year d) +:+ "-" +:+ pad2 (month d) +:+ "-" +:+ pad2 (day d) +:+ "_"
  +:+ pad2 (hour d) +:+ "-" +:+ pad2 (minute d) +:+ "-" +:+ pad2 (second d).

(** [str(d)]: ISO form with a space, microseconds only when non-zero. *)
Definition datetime_str (d : datetime) : string :=
  pad4 (year d) +:+ "-" +:+ pad2 (month d) +:+ "-" +:+ pad2 (day d) +:+ " "
  +:+ pad2 (hour d) +:+ ":" +:+ pad2 (minute d) +:+ ":" +:+ pad2 (second d)
  +:+ (if (microsecond d =? 0)%N then "" else "." +:+ pad6 (microsecond d)).

Local Close Scope N_scope.

(** ** Domain entities ([grannymail.db.classes], imported as [dbc]) *)

Inductive class :=
| User | Message | File | Address | Draft | Order | Attachment | Changelog.

Global Instance class_eq_dec : EqDecision class.
Proof. solve_decision. Defined.

(** An instance of a [dbc] record class: its attributes in declaration
    order, and the [_unique_fields] attribute the client reads from it. *)
Record entity := {
  cls : class;
  attrs : list (string * value);
  _unique_fields : list string
}.

(** [self.obj_to_table], set up in [__init__] *)
Definition obj_to_table (c : class) : string :=
  match c with
  | User => "users"
  | Message => "messages"
  | File => "files"
  | Address => "addresses"
  | Draft => "drafts"
  | Order => "orders"
  | Attachment => "attachments"
  | Changelog => "changelog"
  end.

Fixpoint assoc (f : string) (l : list (string * value)) : option value :=
  match l with
  | [] => None
  | (k, v) :: l' => if decide (k = f) then Some v else assoc f l'
  end.

(** [getattr(obj, f)] *)
Definition getattr (obj : entity) (f : string) : result value :=
  match assoc f (attrs obj) with
  | Some v => Ok v
  | None => Raise (AttributeError f)
  end.

Definition populated (kv : string * value) : Prop := kv.2 ≠ VNone.

Global Instance populated_dec kv : Decision (populated kv).
Proof. unfold populated. apply _. Defined.

(** Modelled from the spec: [AbstractDataTableClass.to_dict] is declared in
    [grannymail/db/classes.py], which is not among the sources.  The insert
    contract checks "each of the entity's declared unique fields that is
    populated in the input", and [_check_duplicates] tests
    [key in data_dict.keys()] for that: the dictionary holds the populated
    (non-[None]) attributes. *)
Definition to_dict (obj : entity) : row :=
  list_to_map (filter populated (attrs obj)).

(** Modelled from the spec: [AbstractDataTableClass.find_different_fields]
    is declared in [grannymail/db/classes.py], which is not among the
    sources.  The update contract "diffs field-by-field against the supplied
    update record": the names of the attributes of [self], in declaration
    order, at which [other] does not hold the same value. *)
Definition find_different_fields (self other : entity) : list string :=
  (filter (fun kv => assoc kv.1 (attrs other) ≠ Some kv.2) (attrs self)).*1.

(** Results within one step, without the world. *)
Definition rbind {A B} (r : result A) (k : A -> result B) : result B :=
  match r with
  | Ok a => k a
  | Raise e => Raise e
  end.

Notation "'let?' x ':=' r 'in' k" := (rbind r (fun x => k))
  (at level 10, x name, r at level 200, k at level 200,
   format "'[v' 'let?'  x  ':='  r  'in' '/' k ']'").

(** [[f for f in fields if getattr(obj, f) is not None]] *)
Fixpoint populated_among (obj : entity) (fields : list string)
    : result (list string) :=
  match fields with
  | [] => Ok []
  | f :: fields' =>
      let? v := getattr obj f in
      let? rest := populated_among obj fields' in
      Ok (if decide (v = VNone) then rest else f :: rest)
  end.

(** [l[0]] *)
Definition item0 {A} (l : list A) : result A :=
  match l with
  | x :: _ => Ok x
  | [] => Raise IndexError
  end.

(** Python truth of what [_check_duplicates] hands back: [None] and the
    empty list are false. *)
Definition truthy (d : option (list string)) : bool :=
  match d with
  | Some (_ :: _) => true
  | _ => false
  end.

(** [', '.join(d)]; joining [None] is a [TypeError]. *)
Definition join_names (d : option (list string)) : result string :=
  match d with
  | Some l => Ok (String.concat ", " l)
  | None => Raise TypeError
  end.

(** [str(v)], as an f-string formats a value. *)
Definition py_str (v : value) : string :=
  match v with
  | VNone => "None"
  | VStr s => s
  | VInt z => pretty z
  end.

(** [obj.f = v] for a declared field [f].  A name that is not a declared
    field would land outside the fields [to_dict] reads, so the attributes
    stay as they are. *)
Definition set_field (obj : entity) (f : string) (v : value) : entity :=
  {| cls := cls obj;
     attrs := (fun kv => if decide (kv.1 = f) then (f, v) else kv)
                <$> attrs obj;
     _unique_fields := _unique_fields obj |}.

(** Exceptions from outside the client's own vocabulary, next to its own:
    the [KeyError] of indexing a row by a missing column, the [ValueError]
    of [get_system_message] for more than one message, and the storage
    client's error for a path that holds nothing. *)
Inductive failure :=
| Client (e : exn)
| KeyError (key : string)
| ManySystemMessages (col_name msg_name : string)
| StorageException (path : string).

Inductive answer (A : Type) :=
| Returns (a : A)
| Throws (e : failure).
Arguments Returns {A} a.
Arguments Throws {A} e.

(** [client.storage.from_(bucket).download(path)]: reads, and changes
    nothing. *)
Definition storage_download (bucket path : string) (w : world)
    : answer (list byte) * world :=
  match storage w !! (bucket, path) with
  | Some (file, _) => (Returns file, w)
  | None => (Throws (StorageException path), w)
  end.

(** ** Notions the statements use *)

(** Every field listed in [_unique_fields] is an attribute of the object. *)
Definition has_unique_attrs (obj : entity) : Prop :=
  Forall (fun g => is_Some (assoc g (attrs obj))) (_unique_fields obj).

(** [f], holding [v], is the first populated unique field of [obj] in the
    declared order: it is populated and every unique field before it is
    [None]. *)
Definition first_populated (obj : entity) (f : string) (v : value) : Prop :=
  ∃ before after,
    _unique_fields obj = before ++ f :: after ∧
    Forall (fun g => assoc g (attrs obj) = Some VNone) before ∧
    assoc f (attrs obj) = Some v ∧ v ≠ VNone.

(** No unique field of [obj] is populated. *)
Definition none_populated (obj : entity) : Prop :=
  Forall (fun g => assoc g (attrs obj) = Some VNone) (_unique_fields obj).

(** The input of an insert collides with the table: one of its unique
    fields is populated, and some stored row holds the same value in that
    column. *)
Definition has_duplicate (table : string) (data : entity) (w : world) : Prop :=
  ∃ key v r,
    key ∈ _unique_fields data ∧ to_dict data !! key = Some v ∧
    r ∈ table_rows table w ∧ r !! key = Some v.

(** The world after the requests [cs] were logged, nothing else changed. *)
Definition log_all (cs : list call) (w : world) : world :=
  {| tables := tables w; storage := storage w; next_id := next_id w;
     utc_clock := utc_clock w; local_clock := local_clock w;
     calls := calls w ++ cs |}.

(** The selects of a duplicate check: one per unique field that is a key of
    the dictionary. *)
Definition check_calls (table : string) (data_dict : row)
    (keys : list string) : list call :=
  omap (fun key => CSelect table key <$> data_dict !! key) keys.

(** The fields [add_order] insists on. *)
Definition order_required : list string :=
  ["user_id"; "draft_id"; "address_id"; "blob_path"].

(** [key], holding [v] in [obj], is the column [_delete_entry] filters on:
    the explicit [deletion_key], or else the first unique field, which must
    then be populated. *)
Definition deletion_target (obj : entity) (deletion_key : option string)
    (key : string) (v : value) : Prop :=
  assoc key (attrs obj) = Some v ∧
  (deletion_key = Some key ∨
   (deletion_key = None ∧ (∃ rest, _unique_fields obj = key :: rest) ∧
    v ≠ VNone)).

(** The object has every one of [fields] as an attribute. *)
Definition has_attrs (fields : list string) (obj : entity) : Prop :=
  Forall (fun g => is_Some (assoc g (attrs obj))) fields.

(** The value of an attribute, [None] when there is no such attribute. *)
Definition attr (obj : entity) (f : string) : value :=
  default VNone (assoc f (attrs obj)).

(** [r.get(k)]: a column that is absent reads as null. *)
Definition column (r : row) (k : string) : value := default VNone (r !! k).

(** The columns [update_user] fills in a changelog entry. *)
Definition changelog_columns : list string :=
  ["timestamp"; "table_name"; "row_id"; "column_name"; "column_type";
   "old_value"; "new_value"].

(** What a changelog row has to record about one change. *)
Definition records (r : row) (timestamp : string) (row_id : value)
    (field : string) (old_value new_value : value) : Prop :=
  column r "timestamp" = VStr timestamp ∧
  column r "table_name" = VStr "users" ∧
  column r "row_id" = row_id ∧
  column r "column_name" = VStr field ∧
  column r "old_value" = old_value ∧
  column r "new_value" = new_value.

(** The request is a select. *)
Definition is_select (c : call) : Prop :=
  match c with
  | CSelect _ _ _ => True
  | _ => False
  end.

(** The exception and the world a run ends with. *)
Definition outcome {A} (m : M A) (w : world) : option exn * world :=
  (raised (m w), (m w).2).

(** ** A concrete schema and sample data

    The attributes the client itself reads or writes, used to run the
    client on concrete inputs. *)

Definition sample_fields (c : class) : list string :=
  match c with
  | User => ["user_id"; "email"; "phone_number"; "telegram_id"]
  | Message => ["message_id"; "user_id"; "sent_by"; "message_body"]
  | File => ["file_id"; "message_id"; "mime_type"; "blob_path"]
  | Address => ["address_id"; "user_id"; "city"]
  | Draft => ["draft_id"; "user_id"; "blob_path"]
  | Order => ["order_id"; "user_id"; "draft_id"; "address_id"; "blob_path"]
  | Attachment => ["attachment_id"; "draft_id"; "message_id"]
  | Changelog =>
      ["changelog_id"; "timestamp"; "table_name"; "row_id"; "column_name";
       "column_type"; "old_value"; "new_value"]
  end.

Definition sample_unique (c : class) : list string :=
  match c with
  | User => ["user_id"; "email"; "phone_number"; "telegram_id"]
  | Message => ["message_id"]
  | File => ["file_id"; "blob_path"]
  | Address => ["address_id"]
  | Draft => ["draft_id"; "blob_path"]
  | Order => ["order_id"]
  | Attachment => ["attachment_id"]
  | Changelog => ["changelog_id"]
  end.

Definition sample_pk (t : string) : string :=
  if decide (t = "users") then "user_id"
  else if decide (t = "messages") then "message_id"
  else if decide (t = "files") then "file_id"
  else if decide (t = "addresses") then "address_id"
  else if decide (t = "drafts") then "draft_id"
  else if decide (t = "orders") then "order_id"
  else if decide (t = "attachments") then "attachment_id"
  else "changelog_id".

Definition noon_utc : datetime :=
  {| year := 2024; month := 3; day := 7; hour := 12; minute := 5;
     second := 30; microsecond := 0 |}.

Definition two_pm_local : datetime :=
  {| year := 2024; month := 3; day := 7; hour := 14; minute := 5;
     second := 30; microsecond := 0 |}.

Definition world_of (tbl : gmap string (list row)) : world :=
  {| tables := tbl; storage := ∅; next_id := 100;
     utc_clock := noon_utc; local_clock := two_pm_local; calls := [] |}.

Definition ann_row : row :=
  <["user_id" := VInt 1]> (<["email" := VStr "ann@example.com"]> ∅).

Definition bob_row : row :=
  <["user_id" := VInt 2]> (<["email" := VStr "bob@example.com"]> ∅).

(** A [User] with only the given e-mail address set. *)
Definition user_with_email (email : string) : entity :=
  {| cls := User;
     attrs := [("user_id", VNone); ("email", VStr email);
               ("phone_number", VNone); ("telegram_id", VNone)];
     _unique_fields := sample_unique User |}.

(** The stored record of Ann, and an update that changes two fields. *)
Definition ann_full : entity :=
  {| cls := User;
     attrs := [("user_id", VInt 1); ("email", VStr "ann@example.com");
               ("phone_number", VNone); ("telegram_id", VNone)];
     _unique_fields := sample_unique User |}.

Definition ann_update : entity :=
  {| cls := User;
     attrs := [("user_id", VInt 1); ("email", VStr "ann@example.org");
               ("phone_number", VStr "555"); ("telegram_id", VNone)];
     _unique_fields := sample_unique User |}.

Definition users_world : world :=
  world_of (<["users" := [ann_row; bob_row]]> ∅).

(** Two stored users sharing one e-mail address. *)
Definition twins_world : world :=
  world_of (<["users" := [ann_row; <["user_id" := VInt 3]> ann_row]]> ∅).

Definition hello_row : row :=
  <["message_id" := VInt 5]>
  (<["user_id" := VInt 1]> (<["message_body" := VStr "hello"]> ∅)).

(** A [Message] with identifier 5 and the given body. *)
Definition message_5 (body : value) : entity :=
  {| cls := Message;
     attrs := [("message_id", VInt 5); ("user_id", VInt 1);
               ("sent_by", VNone); ("message_body", body)];
     _unique_fields := sample_unique Message |}.

Definition messages_world : world :=
  world_of (<["messages" := [hello_row]]> ∅).

Definition memo_row : row :=
  <["draft_id" := VInt 3]> (<["blob_path" := VStr "memos/u1/a.pdf"]> ∅).

(** A new [Draft] at a path that a stored draft already has. *)
Definition draft_at_memo : entity :=
  {| cls := Draft;
     attrs := [("draft_id", VNone); ("user_id", VInt 1);
               ("blob_path", VStr "memos/u1/a.pdf")];
     _unique_fields := sample_unique Draft |}.

Definition drafts_world : world :=
  world_of (<["drafts" := [memo_row]]> ∅).

Definition order_7_row : row :=
  <["order_id" := VInt 7]> (<["user_id" := VInt 1]> ∅).

(** An [Order] with all required fields and the identifier of a stored
    order. *)
Definition order_7 : entity :=
  {| cls := Order;
     attrs := [("order_id", VInt 7); ("user_id", VInt 1);
               ("draft_id", VInt 3); ("address_id", VInt 4);
               ("blob_path", VStr "memos/u1/a.pdf")];
     _unique_fields := sample_unique Order |}.

Definition orders_world : world :=
  world_of (<["orders" := [order_7_row]]> ∅).

(** Rows come back as they are stored, and the other way round for a
    descending order. *)
Definition sample_order (column : string) (desc : bool) (l : list row)
    : list row :=
  if desc then reverse l else l.

(** An [Address] of user 1 with the given identifier. *)
Definition address_of_1 (address_id : value) : entity :=
  {| cls := Address;
     attrs := [("address_id", address_id); ("user_id", VInt 1);
               ("city", VStr "Bern")];
     _unique_fields := sample_unique Address |}.

Definition bern_row : row :=
  <["address_id" := VInt 9]> (<["user_id" := VInt 1]> ∅).

Definition addresses_world : world :=
  world_of (<["addresses" := [bern_row]]> ∅).

(** An [Order] that has a user but no draft. *)
Definition order_without_draft : entity :=
  {| cls := Order;
     attrs := [("order_id", VNone); ("user_id", VInt 1);
               ("draft_id", VNone); ("address_id", VNone);
               ("blob_path", VStr "memos/u1/a.pdf")];
     _unique_fields := sample_unique Order |}.

(** The file record of a voice memo of message 5, uploaded by user 1 at
    14:05:30, and a table that already holds its path. *)
Definition voice_file : entity :=
  {| cls := File;
     attrs := [("file_id", VNone); ("message_id", VInt 5);
               ("mime_type", VStr "audio/ogg");
               ("blob_path", VStr "memos/1/2024-03-07_14-05-30.ogg")];
     _unique_fields := sample_unique File |}.

Definition voice_row : row :=
  <["file_id" := VInt 1]>
  (<["blob_path" := VStr "memos/1/2024-03-07_14-05-30.ogg"]> ∅).

Definition files_world : world :=
  world_of (<["files" := [voice_row]]> ∅).

Definition welcome_row : row :=
  <["full_message_name" := VStr "welcome"]> (<["en" := VStr "Hello!"]> ∅).

Definition system_world : world :=
  world_of (<["system_messages" := [welcome_row]]> ∅).

Definition bye_row : row :=
  <["message_id" := VInt 6]>
  (<["user_id" := VInt 1]> (<["message_body" := VStr "bye"]> ∅)).

(** The stored record of Bob. *)
Definition bob_full : entity :=
  {| cls := User;
     attrs := [("user_id", VInt 2); ("email", VStr "bob@example.com");
               ("phone_number", VNone); ("telegram_id", VNone)];
     _unique_fields := sample_unique User |}.

(** Ann and Bob; Ann has sent two messages, Bob none, and nobody has saved
    a draft. *)
Definition chat_world : world :=
  world_of (<["users" := [ann_row; bob_row]]>
            (<["messages" := [hello_row; bye_row]]> ∅)).

(** ** The client *)

Section Client.

(** The declarations of [grannymail/db/classes.py] and the remote schema are
    not among the sources; the client is embedded for any of them. *)
Variable fields_of : class -> list string.         (* declared attributes *)
Variable unique_fields_of : class -> list string.  (* default [_unique_fields] *)
Variable primary_key : string -> string.           (* generated column of a table *)
Variable bucket : string.                          (* [cfg.SUPABASE_BUCKET_NAME] *)

(** Modelled from the spec: the record classes are declared in
    [grannymail/db/classes.py], which is not among the sources.  Each is
    "a flat record type" built from a remote row by keyword construction:
    every declared attribute takes the keyword of its name or defaults to
    [None], and an undeclared keyword is a [TypeError]. *)
Definition new (c : class) (kwargs : row) : result entity :=
  if decide (map_Forall (fun k _ => k ∈ fields_of c) kwargs) then
    Ok {| cls := c;
          attrs := (fun f => (f, default VNone (kwargs !! f))) <$> fields_of c;
          _unique_fields := unique_fields_of c |}
  else Raise TypeError.

(** The row as the server stores it: the generated identifier is filled in
    when the client sent none. *)
Definition materialise (t : string) (r : row) (w : world) : row :=
  match r !! primary_key t with
  | Some _ => r
  | None => <[primary_key t := VInt (next_id w)]> r
  end.

(** [client.table(t).insert(r).execute().data] *)
Definition insert (t : string) (r : row) : M (list row) :=
  fun w =>
    let r' := materialise t r w in
    (Ok [r'],
     log (CInsert t r) (bump_id (set_table t (table_rows t w ++ [r']) w))).

(** The loop of [_check_duplicates]: one select per unique field that is a
    key of [data_dict]. *)
Fixpoint duplicated_values (table : string) (data_dict : row)
    (keys : list string) : M (list string) :=
  match keys with
  | [] => ret []
  | key :: keys' =>
      match data_dict !! key with
      | Some v =>
          let! response := select_eq table key v in
          let! rest := duplicated_values table data_dict keys' in
          ret (if decide (response = []) then rest else key :: rest)
      | None => duplicated_values table data_dict keys'
      end
  end.

(** Falls off its end when nothing is duplicated: the caller gets [None]. *)
Definition _check_duplicates (table : string) (data : entity)
    : M (option (list string)) :=
  let data_dict := to_dict data in
  let! dups := duplicated_values table data_dict (_unique_fields data) in
  match dups with
  | _ :: _ => raise DuplicateEntryError
  | [] => ret None
  end.

(** [response] is a list by its type, so the [isinstance] test passes. *)
Definition _validate_exactly_one_supabase_item (response : list row)
    (table field_name : string) (field_value : value) : result unit :=
  if decide (length response ≠ 1) then
    if decide (length response = 0) then
      Raise (NoEntryFoundError table field_name field_value)
    else Raise (ValueError (MoreThanOne field_name field_value))
  else Ok tt.

(** [obj] is an [AbstractDataTableClass] by its type. *)
Definition _get_obj_info (table : string) (obj : entity) : M row :=
  let! unique_fields := lift (populated_among obj (_unique_fields obj)) in
  match unique_fields with
  | [] => raise (ValueError NoUniqueFields)
  | unique_field :: _ =>
      let! v := lift (getattr obj unique_field) in
      let! response := select_eq table unique_field v in
      let! _ := lift (_validate_exactly_one_supabase_item
                        response table unique_field v) in
      lift (item0 response)
  end.

Definition _delete_entry (obj : entity) (deletion_key : option string)
    : M nat :=
  let table := obj_to_table (cls obj) in
  let! deletion_key :=
    match deletion_key with
    | Some k => ret k
    | None =>
        let! k := lift (item0 (_unique_fields obj)) in
        let! v := lift (getattr obj k) in
        if decide (v = VNone) then raise (ValueError (NoDeletionValue k))
        else ret k
    end in
  let! v := lift (getattr obj deletion_key) in
  let! response := delete_eq table deletion_key v in
  let items_deleted := length response in
  if decide (items_deleted = 0) then
    raise (NoEntryFoundError table deletion_key v)
  else ret items_deleted.

Definition get_user (data : entity) : M entity :=
  let! r := _get_obj_info "users" data in
  lift (new User r).

Definition add_user (user : entity) : M entity :=
  let! duplicates := _check_duplicates "users" user in
  if truthy duplicates then raise DuplicateEntryError
  else
    let! r := insert "users" (to_dict user) in
    let! r0 := lift (item0 r) in
    lift (new User r0).

Definition add_changelog (changelog : entity) : M (Z * string) :=
  let! _ := insert "changelog" (to_dict changelog) in
  ret (0%Z, "Changelog added successfully").

(** The keyword arguments of [dbc.Changelog(…)] in [update_user] *)
Definition changelog_kwargs (timestamp_utc : string) (row_id : value)
    (field : string) (old_value new_value : value) : row :=
  <["timestamp" := VStr timestamp_utc]>
  (<["table_name" := VStr "users"]>
  (<["row_id" := row_id]>
  (<["column_name" := VStr field]>
  (<["column_type" := VStr (type_name new_value)]>
  (<["old_value" := old_value]>
  (<["new_value" := new_value]> ∅)))))).

(** One turn of the loop of [update_user] over the changed fields. *)
Definition log_change (user_data_full user_update : entity)
    (timestamp_utc field : string) : M unit :=
  let! row_id := lift (getattr user_data_full "user_id") in
  let! new_value := lift (getattr user_update field) in
  let! old_value := lift (getattr user_data_full field) in
  let! changelog :=
    lift (new Changelog
            (changelog_kwargs timestamp_utc row_id field
               old_value new_value)) in
  let! _ := add_changelog changelog in
  ret tt.

Definition update_user (user_data user_update : entity) : M (Z * string) :=
  let! user_data_full := get_user user_data in
  let fields_updated := find_different_fields user_data_full user_update in
  match fields_updated with
  | [] => ret (1%Z, "No fields were updated")
  | _ :: _ =>
      let! t := utcnow in
      let timestamp_utc := datetime_str t in
      let! _ :=
        for_each fields_updated
          (log_change user_data_full user_update timestamp_utc) in
      let! user_id := lift (getattr user_data_full "user_id") in
      let! _ := update_eq "users" (to_dict user_update) "user_id" user_id in
      ret (0%Z, "User updated successfully")
  end.

Definition delete_user (user : entity) : M (Z * string) :=
  let! user_full := get_user user in
  let! user_id := lift (getattr user_full "user_id") in
  let! _ := delete_eq "users" "user_id" user_id in
  ret (0%Z, "User deleted successfully").

Definition get_message (message : entity) : M entity :=
  let! r := _get_obj_info "messages" message in
  lift (new Message r).

Definition add_message (msg_data : entity) : M entity :=
  let! duplicates := _check_duplicates "messages" msg_data in
  let! r :=
    if truthy duplicates then raise DuplicateEntryError
    else insert "messages" (to_dict msg_data) in
  let incoming_type := cls msg_data in
  let! r0 := lift (item0 r) in
  let filtered_data := filter (fun kv => kv.2 ≠ VNone) r0 in
  lift (new incoming_type filtered_data).

Definition update_message (msg_data msg_update : entity) : M (Z * string) :=
  let! msg_data_full := get_message msg_data in
  let! message_id := lift (getattr msg_data_full "message_id") in
  let! _ :=
    update_eq "messages" (to_dict msg_update) "message_id" message_id in
  ret (0%Z, "Message updated successfully").

Definition get_file (data : entity) : M entity :=
  let! r := _get_obj_info "files" data in
  lift (new File r).

Definition add_file (file : entity) : M entity :=
  let! duplicates := _check_duplicates "files" file in
  if truthy duplicates then raise DuplicateEntryError
  else
    let! response := insert "files" (to_dict file) in
    if decide (length response = 1) then
      let! file_data := lift (item0 response) in
      lift (new File file_data)
    else raise AssertionError.

Definition add_address (address : entity) : M entity :=
  let! user_id := lift (getattr address "user_id") in
  if decide (user_id = VNone) then
    raise (ValueError (MissingField "Address" "user_id"))
  else
    let! response := insert "addresses" (to_dict address) in
    let! r0 := lift (item0 response) in
    lift (new Address r0).

Definition delete_address (address : entity) : M (Z * string) :=
  let! address_id := lift (getattr address "address_id") in
  if decide (address_id = VNone) then
    raise (ValueError (MissingField "Address" "address_id"))
  else
    let! _ := delete_eq "addresses" "address_id" address_id in
    ret (0%Z, "Address deleted successfully").

Definition add_draft (draft : entity) : M entity :=
  let! response := insert "drafts" (to_dict draft) in
  if decide (length response = 1) then
    let! draft_data := lift (item0 response) in
    lift (new Draft draft_data)
  else raise AssertionError.

Definition add_attachment (attachment : entity) : M entity :=
  let! response := insert "attachments" (to_dict attachment) in
  if decide (length response = 1) then
    let! attachment_data := lift (item0 response) in
    lift (new Attachment attachment_data)
  else raise AssertionError.

Definition upload_file (filebytes : list byte) (user_id mime_type : string)
    : M string :=
  let! suffix :=
    if decide (mime_type = "audio/ogg") then ret ".ogg"
    else if decide (mime_type = "application/pdf") then ret ".pdf"
    else raise (ValueError (MimeNotSupported mime_type)) in
  let! t := now in
  let bucket_path :=
    "memos/" +:+ user_id +:+ "/" +:+ strftime_path t +:+ suffix in
  let! _ := storage_upload bucket bucket_path filebytes mime_type in
  ret bucket_path.

Definition get_draft (draft : entity) : M entity :=
  let! r := _get_obj_info "drafts" draft in
  lift (new Draft r).

Definition add_order (order : entity) : M (Z * string) :=
  let! _ :=
    for_each order_required
      (fun field =>
         let! v := lift (getattr order field) in
         if decide (v = VNone) then
           raise (ValueError (MissingField "Order" field))
         else ret tt) in
  let! duplicates := _check_duplicates "orders" order in
  if truthy duplicates then
    let! names := lift (join_names duplicates) in
    ret (1%Z, "A existing user was already found with " +:+ names)
  else
    let! _ := insert "orders" (to_dict order) in
    ret (0%Z, "Order added successfully").

(** No [return]: the caller gets [None]. *)
Definition get_order (order : entity) : M unit :=
  let! _ := _get_obj_info "orders" order in
  ret tt.

Definition download_draft (draft : entity) (w : world)
    : answer (list byte) * world :=
  match getattr draft "blob_path" with
  | Raise e => (Throws (Client e), w)
  | Ok blob_path =>
      if decide (blob_path = VNone) then
        (Throws (Client (ValueError (MissingField "Draft" "blob_path"))), w)
      else storage_download bucket (py_str blob_path) w
  end.

(** The keyword arguments of [dbc.File(…)] in [register_voice_message] *)
Definition file_kwargs (message_id : value) (mime_type bucket_path : string)
    : row :=
  <["message_id" := message_id]>
  (<["mime_type" := VStr mime_type]>
  (<["blob_path" := VStr bucket_path]> ∅)).

Definition register_voice_message (filebytes : list byte) (message : entity)
    : M unit :=
  let! user_id := lift (getattr message "user_id") in
  if decide (user_id = VNone) then
    raise (ValueError (MissingField "Message" "user_id"))
  else
    let mime_type := "audio/ogg" in
    let! bucket_path := upload_file filebytes (py_str user_id) mime_type in
    let! message_id := lift (getattr message "message_id") in
    let! file :=
      lift (new File (file_kwargs message_id mime_type bucket_path)) in
    let! _ := add_file file in
    ret tt.

Definition register_message (user : entity) (sent_by : string)
    (attachment_mime_type message_body command transcript : value)
    : M entity :=
  let! user_id := lift (getattr user "user_id") in
  if decide (user_id = VNone) then
    raise (ValueError (MissingField "User" "user_id"))
  else
    let! message :=
      lift (new Message
              (<["user_id" := user_id]>
               (<["sent_by" := VStr sent_by]>
               (<["message_body" := message_body]>
               (<["attachment_mime_type" := attachment_mime_type]>
               (<["transcript" := transcript]>
               (<["command" := command]> ∅))))))) in
    add_message message.

(** The assignment [draft.blob_path = bucket_path] also changes the
    caller's object; only the record sent on is followed here. *)
Definition register_draft (draft : entity) (pdf_bytes : list byte)
    : M entity :=
  let! user_id := lift (getattr draft "user_id") in
  if decide (user_id = VNone) then
    raise (ValueError (MissingField "Draft" "user_id"))
  else
    let mime_type := "application/pdf" in
    let! bucket_path := upload_file pdf_bytes (py_str user_id) mime_type in
    let draft := set_field draft "blob_path" (VStr bucket_path) in
    add_draft draft.

(** [col_name] defaults to [cfg.MESSAGES_SHEET_NAME], which is not among
    the sources. *)
Definition get_system_message (msg_name col_name : string) (w : world)
    : answer value * world :=
  match select_eq "system_messages" "full_message_name" (VStr msg_name) w with
  | (Raise e, w') => (Throws (Client e), w')
  | (Ok data, w') =>
      if decide (data = []) then
        (Throws (Client (NoEntryFoundError "system_messages" col_name
                           (VStr msg_name))), w')
      else if decide (1 < length data) then
        (Throws (ManySystemMessages col_name msg_name), w')
      else
        match data with
        | r :: _ =>
            match r !! col_name with
            | Some v => (Returns v, w')
            | None => (Throws (KeyError col_name), w')
            end
        | [] => (Throws (Client IndexError), w')
        end
  end.

(** The order in which the server hands back rows for
    [.order(column, desc=…)]; the hosted database decides it. *)
Variable order_by : string -> bool -> list row -> list row.

(** [client.table(t).select("*").eq(key, v).order(column, desc=…)
    .execute().data] *)
Definition select_eq_order (t key : string) (v : value) (column : string)
    (desc : bool) : M (list row) :=
  fun w => (Ok (order_by column desc
                  (filter (row_matches key v) (table_rows t w))),
            log (CSelect t key v) w).

(** The comprehension that builds one record of class [c] from each row;
    the first row that does not fit the class stops it. *)
Fixpoint decode_all (c : class) (data : list row) : result (list entity) :=
  match data with
  | [] => Ok []
  | r :: data' =>
      let? e := new c r in
      let? es := decode_all c data' in
      Ok (e :: es)
  end.

Definition get_all_user_messages (user : entity) : M (list entity) :=
  let! user := get_user user in
  let! user_id := lift (getattr user "user_id") in
  let! data := select_eq_order "messages" "user_id" user_id "timestamp" false in
  lift (decode_all Message data).

Definition get_user_addresses (user : entity) : M (list entity) :=
  let! user := get_user user in
  let! user_id := lift (getattr user "user_id") in
  if decide (user_id = VNone) then
    raise (ValueError (MissingField "User" "user_id"))
  else
    let! response :=
      select_eq_order "addresses" "user_id" user_id "created_at" false in
    lift (decode_all Address response).

Definition get_user_drafts (user : entity) : M (list entity) :=
  let! user := get_user user in
  let! user_id := lift (getattr user "user_id") in
  if decide (user_id = VNone) then
    raise (ValueError (MissingField "User" "user_id"))
  else
    let! data :=
      select_eq_order "drafts" "user_id" user_id "created_at" false in
    lift (decode_all Draft data).

(** [None] when there is no draft, else [drafts[-1]]. *)
Definition get_last_draft (user : entity) : M (option entity) :=
  let! drafts := get_user_drafts user in
  ret (last drafts).

Definition get_last_user_message (user : entity) : M entity :=
  let! user := get_user user in
  let! user_id := lift (getattr user "user_id") in
  let! data := select_eq_order "messages" "user_id" user_id "timestamp" true in
  match data with
  | [] =>
      if decide (user_id = VNone) then raise AssertionError
      else raise (NoEntryFoundError "messages" "user_id"
                    (VStr (py_str user_id)))
  | r :: _ => lift (new Message r)
  end.

(** The lookup of [user] in [w] filters on [f = v], matches one row, and
    that row decodes to [full]. *)
Definition finds_user (user full : entity) (f : string) (v : value)
    (w : world) : Prop :=
  has_unique_attrs user ∧ first_populated user f v ∧
  ∃ r, filter (row_matches f v) (table_rows "users" w) = [r] ∧
       new User r = Ok full.

(** The operations that list the rows of one user, each with its table and
    the class of its records. *)
Definition listing_ops : list (string * class * (entity -> M (list entity))) :=
  [("messages", Message, get_all_user_messages);
   ("addresses", Address, get_user_addresses);
   ("drafts", Draft, get_user_drafts)].

(** The path [upload_file] gives a payload of user [user_id] uploaded in
    world [w]. *)
Definition upload_path (user_id : value) (suffix : string) (w : world)
    : string :=
  "memos/" +:+ py_str user_id +:+ "/" +:+ strftime_path (local_clock w)
  +:+ suffix.

(** The five [get_<entity>] lookups with the table each one reads, seen
    through their outcome. *)
Definition lookup_ops : list (string * (entity -> world -> option exn * world)) :=
  [("users", fun obj => outcome (get_user obj));
   ("messages", fun obj => outcome (get_message obj));
   ("files", fun obj => outcome (get_file obj));
   ("drafts", fun obj => outcome (get_draft obj));
   ("orders", fun obj => outcome (get_order obj))].

(** The inserts that check for duplicates first, each with its table and
    the class of the record it returns. *)
Definition checked_add_ops
    : list (string * (entity -> class) * (entity -> M entity)) :=
  [("users", fun _ => User, add_user);
   ("messages", cls, add_message);
   ("files", fun _ => File, add_file)].

(** The dictionary [update_user] sends for one changed field. *)
Definition changelog_row (timestamp_utc : string) (row_id : value)
    (field : string) (old_value new_value : value) : row :=
  filter (fun kv => kv.2 ≠ VNone)
    (changelog_kwargs timestamp_utc row_id field old_value new_value).

(** The world after inserting the rows one after the other. *)
Fixpoint insert_all (t : string) (rs : list row) (w : world) : world :=
  match rs with
  | [] => w
  | r :: rs' => insert_all t rs' (insert t r w).2
  end.

(** ** Properties *)

(** *** Running a computation *)

Lemma bind_run {A B} (m : M A) (k : A -> M B) w :
  bind m k w =
    match m w with
    | (Ok a, w') => k a w'
    | (Raise e, w') => (Raise e, w')
    end.
Proof. reflexivity. Qed.

Lemma bind_ok {A B} (m : M A) (k : A -> M B) w a w' :
  m w = (Ok a, w') → bind m k w = k a w'.
Proof. intros H. by rewrite bind_run, H. Qed.

Lemma bind_raise {A B} (m : M A) (k : A -> M B) w e w' :
  m w = (Raise e, w') → bind m k w = (Raise e, w').
Proof. intros H. by rewrite bind_run, H. Qed.

Lemma bind_lift_ok {A B} (r : result A) (k : A -> M B) w a :
  r = Ok a → bind (lift r) k w = k a w.
Proof. by intros ->. Qed.

(** *** Lookup *)

Lemma populated_among_total obj fields :
  Forall (fun g => is_Some (assoc g (attrs obj))) fields →
  ∃ l, populated_among obj fields = Ok l.
Proof.
  induction 1 as [|g fields [v Hv] _ [l IH]]; simpl; [by eexists|].
  unfold getattr. rewrite Hv. simpl. rewrite IH. simpl. by eexists.
Qed.

Lemma populated_among_skip obj before fields :
  Forall (fun g => assoc g (attrs obj) = Some VNone) before →
  populated_among obj (before ++ fields) = populated_among obj fields.
Proof.
  induction 1 as [|g before Hg _ IH]; simpl; [done|].
  unfold getattr. rewrite Hg. simpl. rewrite IH.
  destruct (populated_among obj fields); simpl; [|done].
  by destruct (decide (VNone = VNone)).
Qed.

Lemma populated_among_first obj f v :
  has_unique_attrs obj → first_populated obj f v →
  ∃ rest, populated_among obj (_unique_fields obj) = Ok (f :: rest).
Proof.
  unfold has_unique_attrs.
  intros Hall (before & after & Heq & Hbefore & Hf & Hv).
  rewrite Heq in Hall |- *.
  rewrite populated_among_skip by done.
  apply Forall_app in Hall as [_ Hall]. apply Forall_cons in Hall as [_ Hall].
  destruct (populated_among_total obj after Hall) as [rest Hrest].
  exists rest. simpl. unfold getattr. rewrite Hf. simpl. rewrite Hrest. simpl.
  by destruct (decide (v = VNone)).
Qed.

Lemma populated_among_none obj :
  none_populated obj → populated_among obj (_unique_fields obj) = Ok [].
Proof.
  intros H. rewrite <- (app_nil_r (_unique_fields obj)).
  by rewrite populated_among_skip.
Qed.

(** The run of [_get_obj_info] once the field it filters on is known: one
    select on that field, then the exactly-one check on what came back. *)
Lemma get_obj_info_run table obj f v w :
  has_unique_attrs obj → first_populated obj f v →
  _get_obj_info table obj w =
    (match filter (row_matches f v) (table_rows table w) with
     | [] => Raise (NoEntryFoundError table f v)
     | [r] => Ok r
     | _ :: _ :: _ => Raise (ValueError (MoreThanOne f v))
     end,
     log (CSelect table f v) w).
Proof.
  intros Hall Hfirst.
  destruct (populated_among_first obj f v Hall Hfirst) as [rest Hrest].
  destruct Hfirst as (_ & _ & _ & _ & Hf & _).
  unfold _get_obj_info, bind, lift, select_eq. rewrite Hrest.
  unfold getattr. rewrite Hf.
  by destruct (filter (row_matches f v) (table_rows table w)) as [|r [|r' l]].
Qed.

Lemma get_obj_info_unpopulated table obj w :
  none_populated obj →
  _get_obj_info table obj w = (Raise (ValueError NoUniqueFields), w).
Proof.
  intros H. unfold _get_obj_info, bind, lift.
  by rewrite (populated_among_none obj H).
Qed.

(** A continuation that makes no remote call keeps the world and the
    exception of the lookup before it. *)
Lemma outcome_bind_lift {A B} (m : M A) (k : A -> result B) w :
  (outcome (let! a := m in lift (k a)) w).2 = (m w).2 ∧
  (∀ e, raised (m w) = Some e →
        (outcome (let! a := m in lift (k a)) w).1 = Some e).
Proof.
  unfold outcome, raised, bind, lift. simpl.
  destruct (m w) as [[a|e] w']; simpl; [split; [done|discriminate]|].
  split; [done|]. by intros e' [= ->].
Qed.

Lemma lookup_ops_shape table get :
  (table, get) ∈ lookup_ops →
  ∀ obj w,
    (get obj w).2 = (_get_obj_info table obj w).2 ∧
    (∀ e, raised (_get_obj_info table obj w) = Some e →
          (get obj w).1 = Some e).
Proof.
  unfold lookup_ops. rewrite !elem_of_cons, elem_of_nil.
  intros [H|[H|[H|[H|[H|[]]]]]] obj w; simplify_eq;
    first [ apply (outcome_bind_lift _ (new _))
          | apply (outcome_bind_lift _ (fun _ => Ok tt)) ].
Qed.

(** An object with a populated unique field has a first one. *)
Lemma first_populated_exists obj :
  has_unique_attrs obj →
  (∃ g v, g ∈ _unique_fields obj ∧ assoc g (attrs obj) = Some v ∧ v ≠ VNone) →
  ∃ f v, first_populated obj f v.
Proof.
  unfold has_unique_attrs, first_populated.
  generalize (_unique_fields obj) as fields.
  induction fields as [|g0 fields IH]; intros Hall (g & v & Hin & Hg & Hv).
  - by apply elem_of_nil in Hin.
  - apply Forall_cons in Hall as [[v0 Hv0] Hall].
    destruct (decide (v0 = VNone)) as [->|Hne].
    + apply elem_of_cons in Hin as [->|Hin]; [congruence|].
      destruct (IH Hall) as (f & v' & before & after & -> & Hb & Hf & Hv');
        [by exists g, v|].
      exists f, v', (g0 :: before), after. repeat split; try done.
      by constructor.
    + exists g0, v0, [], fields. repeat split; try done.
Qed.

(** C3: for each of [get_user], [get_message], [get_file], [get_draft] and
    [get_order], given an object whose first populated unique field is [f]
    with value [v]: when no row of the table has [v] in column [f] the
    lookup raises [NoEntryFoundError]; when more than one row has, it raises
    the [ValueError] for an ambiguous result, a different exception. *)
Theorem lookup_not_found_or_ambiguous
    (table : string) (get : entity -> world -> option exn * world)
    (obj : entity) (f : string) (v : value) (w : world) :
  (table, get) ∈ lookup_ops →
  has_unique_attrs obj → first_populated obj f v →
  let matching := filter (row_matches f v) (table_rows table w) in
  (matching = [] → (get obj w).1 = Some (NoEntryFoundError table f v)) ∧
  (1 < length matching →
     (get obj w).1 = Some (ValueError (MoreThanOne f v))) ∧
  NoEntryFoundError table f v ≠ ValueError (MoreThanOne f v).
Proof.
  intros Hop Hall Hfirst matching.
  destruct (lookup_ops_shape table get Hop obj w) as [_ Herr].
  pose proof (get_obj_info_run table obj f v w Hall Hfirst) as Hrun.
  fold matching in Hrun.
  repeat split; [| |discriminate].
  - intros Hnil. apply Herr. rewrite Hrun, Hnil. reflexivity.
  - intros Hmany. apply Herr. rewrite Hrun.
    destruct matching as [|r [|r' l]]; simpl in Hmany; [lia|lia|reflexivity].
Qed.

(** C8: each of the five lookups, given an object with a populated unique
    field, issues exactly one request, a select filtered on the first
    populated unique field in the declared order; given an object with no
    populated unique field it raises the [ValueError] for that and leaves
    the world untouched: nothing was sent. *)
Theorem lookup_filters_on_first_populated
    (table : string) (get : entity -> world -> option exn * world)
    (obj : entity) (w : world) :
  (table, get) ∈ lookup_ops →
  has_unique_attrs obj →
  (∀ f v, first_populated obj f v →
          calls (get obj w).2 = calls w ++ [CSelect table f v]) ∧
  (none_populated obj → get obj w = (Some (ValueError NoUniqueFields), w)).
Proof.
  intros Hop Hall.
  destruct (lookup_ops_shape table get Hop obj w) as [Hw Herr].
  split.
  - intros f v Hfirst. rewrite Hw.
    by rewrite (get_obj_info_run table obj f v w Hall Hfirst).
  - intros Hnone.
    pose proof (get_obj_info_unpopulated table obj w Hnone) as Hrun.
    rewrite Hrun in Hw, Herr.
    specialize (Herr _ eq_refl).
    destruct (get obj w) as [e w']. simpl in *. congruence.
Qed.

(** C9: for an [Order] whose first populated unique field matches exactly
    one stored row, [get_order] makes the lookup that [_get_obj_info] makes,
    which fetches that row and passes the exactly-one check, and returns
    nothing; whatever its input, it either raises or returns nothing. *)
Theorem get_order_discards_row
    (order : entity) (f : string) (v : value) (r : row) (w : world) :
  (has_unique_attrs order → first_populated order f v →
   filter (row_matches f v) (table_rows "orders" w) = [r] →
   _get_obj_info "orders" order w = (Ok r, log (CSelect "orders" f v) w) ∧
   get_order order w = (Ok tt, log (CSelect "orders" f v) w)) ∧
  ((get_order order w).1 = Ok tt ∨ ∃ e, (get_order order w).1 = Raise e).
Proof.
  split.
  - intros Hall Hfirst Hone.
    pose proof (get_obj_info_run "orders" order f v w Hall Hfirst) as Hrun.
    rewrite Hone in Hrun. split; [done|].
    unfold get_order, bind. by rewrite Hrun.
  - destruct (get_order order w) as [[[]|e] w']; simpl; eauto.
Qed.

(** *** Duplicate check *)

Lemma log_all_nil w : log_all [] w = w.
Proof. destruct w. unfold log_all. simpl. by rewrite app_nil_r. Qed.

Lemma log_all_log c cs w : log_all cs (log c w) = log_all (c :: cs) w.
Proof. unfold log_all, log. simpl. by rewrite <- app_assoc. Qed.

(** The checks only read: they never raise, and leave behind their selects
    and the unique fields found in the table. *)
Lemma duplicated_values_run table data_dict keys w :
  ∃ dups,
    duplicated_values table data_dict keys w
    = (Ok dups, log_all (check_calls table data_dict keys) w) ∧
    ∀ key, key ∈ dups ↔
      key ∈ keys ∧ ∃ v r, data_dict !! key = Some v ∧
                          r ∈ table_rows table w ∧ r !! key = Some v.
Proof.
  revert w. induction keys as [|key keys IH]; intros w.
  - exists []. split; [simpl; by rewrite log_all_nil|].
    intros key. split; [by intros ?%elem_of_nil|by intros [?%elem_of_nil _]].
  - simpl. unfold check_calls. simpl. fold (check_calls table data_dict keys).
    destruct (data_dict !! key) as [v|] eqn:Hkey; simpl.
    + destruct (IH (log (CSelect table key v) w)) as (dups & Hrun & Hdups).
      unfold bind, select_eq. rewrite Hrun, log_all_log. unfold ret.
      eexists. split; [reflexivity|].
      intros k. destruct (decide (filter _ _ = [])) as [Hnil|Hne].
      * rewrite Hdups, elem_of_cons. split.
        -- intros (? & v' & r & ? & ? & ?). split; [by right|]. by exists v', r.
        -- intros ([->|?] & v' & r & Hv' & Hr & Hm);
             [|split; [done|by exists v', r]].
           exfalso. rewrite Hkey in Hv'. injection Hv' as <-.
           assert (r ∈ filter (row_matches key v) (table_rows table w)) as Hin
             by (by apply list_elem_of_filter).
           rewrite Hnil in Hin. by apply elem_of_nil in Hin.
      * rewrite !elem_of_cons, Hdups. split.
        -- intros [->|(? & v' & r & ? & ? & ?)].
           ++ split; [by left|].
              destruct (filter (row_matches key v) (table_rows table w))
                as [|r l] eqn:Hf; [done|].
              assert (r ∈ filter (row_matches key v) (table_rows table w)) as Hin
                by (rewrite Hf; left).
              apply list_elem_of_filter in Hin as [Hm Hin]. by exists v, r.
           ++ split; [by right|]. by exists v', r.
        -- intros ([->|?] & v' & r & ? & ? & ?);
             [by left|right; split; [done|by exists v', r]].
    + destruct (IH w) as (dups & Hrun & Hdups).
      exists dups. split; [done|].
      intros k. rewrite Hdups, elem_of_cons. split.
      * intros (? & ?). split; [by right|done].
      * intros ([->|?] & v' & r & Hv' & ?);
          [congruence|split; [done|by exists v', r]].
Qed.

Lemma check_duplicates_run table data w :
  let w' := log_all (check_calls table (to_dict data) (_unique_fields data)) w in
  (has_duplicate table data w ∧
   _check_duplicates table data w = (Raise DuplicateEntryError, w')) ∨
  (¬ has_duplicate table data w ∧
   _check_duplicates table data w = (Ok None, w')).
Proof.
  intros w'. unfold _check_duplicates, bind.
  destruct (duplicated_values_run table (to_dict data) (_unique_fields data) w)
    as (dups & -> & Hdups).
  destruct dups as [|key dups].
  - right. split; [|done].
    intros (key & v & r & Hin & Hv & Hr & Hm).
    apply (elem_of_nil key), Hdups. split; [done|]. by exists v, r.
  - left. split; [|done].
    destruct (proj1 (Hdups key)) as (Hin & v & r & Hv & Hr & Hm); [left|].
    by exists key, v, r.
Qed.

Lemma required_fields_pass order w :
  Forall (fun g => ∃ v, assoc g (attrs order) = Some v ∧ v ≠ VNone)
    order_required →
  for_each order_required
    (fun field =>
       let! v := lift (getattr order field) in
       if decide (v = VNone) then
         raise (ValueError (MissingField "Order" field))
       else ret tt) w
  = (Ok tt, w).
Proof.
  generalize order_required as l.
  induction 1 as [|g l (v & Hg & Hv) _ IH]; [done|].
  simpl. rewrite bind_run, bind_run. unfold lift, getattr.
  rewrite Hg. by destruct (decide (v = VNone)).
Qed.

(** C10: [_check_duplicates] ends either by raising [DuplicateEntryError]
    or by handing back [None], so whatever it hands back is false in an
    [if duplicates:] test (the one in [add_user], [add_message], [add_file]
    and [add_order]); [add_order] either raises or returns
    [(0, "Order added successfully")], never a pair with status [1]; and an
    order with its required fields that collides with a stored row ends in
    the raised [DuplicateEntryError]. *)
Theorem check_duplicates_raises_or_none
    (table : string) (data order : entity) (w : world) :
  ((_check_duplicates table data w).1 = Ok None ∨
   (_check_duplicates table data w).1 = Raise DuplicateEntryError) ∧
  (∀ d, (_check_duplicates table data w).1 = Ok d → truthy d = false) ∧
  ((∃ e, (add_order order w).1 = Raise e) ∨
   (add_order order w).1 = Ok (0%Z, "Order added successfully")) ∧
  (∀ msg, (add_order order w).1 ≠ Ok (1%Z, msg)) ∧
  (Forall (fun g => ∃ v, assoc g (attrs order) = Some v ∧ v ≠ VNone)
     order_required →
   has_duplicate "orders" order w →
   (add_order order w).1 = Raise DuplicateEntryError).
Proof.
  assert (Horder : (∃ e, (add_order order w).1 = Raise e) ∨
                   (add_order order w).1 = Ok (0%Z, "Order added successfully")).
  { unfold add_order. rewrite bind_run.
    destruct (for_each _ _ w) as [[[]|e] w1]; [|left; by eexists].
    rewrite bind_run.
    destruct (check_duplicates_run "orders" order w1) as [[_ ->]|[_ ->]];
      [left; by eexists|by right]. }
  repeat split.
  - destruct (check_duplicates_run table data w) as [[_ ->]|[_ ->]];
      [by right|by left].
  - intros d.
    destruct (check_duplicates_run table data w) as [[_ ->]|[_ ->]];
      simpl; [done|by intros [= <-]].
  - exact Horder.
  - intros msg Hmsg. destruct Horder as [[e He]|Hok]; congruence.
  - intros Hreq Hdup. unfold add_order.
    rewrite (bind_ok _ _ _ _ _ (required_fields_pass order w Hreq)).
    rewrite bind_run.
    destruct (check_duplicates_run "orders" order w) as [[_ ->]|[Hno _]];
      [done|by destruct Hno].
Qed.

(** *** Records and dictionaries *)

Lemma list_to_map_assoc (l : list (string * value)) k :
  (list_to_map l : row) !! k = assoc k l.
Proof.
  induction l as [|[k' v] l IH]; simpl; [apply lookup_empty|].
  destruct (decide (k' = k)) as [->|Hne].
  - apply lookup_insert_eq.
  - by rewrite lookup_insert_ne.
Qed.

Lemma assoc_elem_of (l : list (string * value)) k v :
  assoc k l = Some v → (k, v) ∈ l.
Proof.
  induction l as [|[k' v'] l IH]; simpl; [done|].
  destruct (decide (k' = k)) as [->|Hne].
  - intros [= ->]. left.
  - intros H. right. by apply IH.
Qed.

Lemma to_dict_populated obj k v : to_dict obj !! k = Some v → v ≠ VNone.
Proof.
  unfold to_dict. rewrite list_to_map_assoc. intros H%assoc_elem_of.
  by apply list_elem_of_filter in H as [H _].
Qed.

Lemma assoc_fields (g : string -> value) fields k :
  k ∈ fields → assoc k ((fun f => (f, g f)) <$> fields) = Some (g k).
Proof.
  induction fields as [|f fields IH]; [by intros ?%elem_of_nil|].
  intros Hin. simpl. destruct (decide (f = k)) as [->|Hne]; [done|].
  apply elem_of_cons in Hin as [->|Hin]; [done|by apply IH].
Qed.

Lemma assoc_fields_None (g : string -> value) fields k :
  k ∉ fields → assoc k ((fun f => (f, g f)) <$> fields) = None.
Proof.
  induction fields as [|f fields IH]; [done|].
  intros Hin. simpl. apply not_elem_of_cons in Hin as [Hne Hin].
  destruct (decide (f = k)) as [->|_]; [done|by apply IH].
Qed.

Lemma new_inv c kwargs e :
  new c kwargs = Ok e →
  map_Forall (fun k _ => k ∈ fields_of c) kwargs ∧
  e = {| cls := c;
         attrs := (fun f => (f, default VNone (kwargs !! f))) <$> fields_of c;
         _unique_fields := unique_fields_of c |}.
Proof.
  unfold new. destruct (decide _) as [H|]; [|done]. by intros [= <-].
Qed.

Lemma new_total c kwargs :
  map_Forall (fun k _ => k ∈ fields_of c) kwargs → ∃ e, new c kwargs = Ok e.
Proof. intros H. unfold new. destruct (decide _); [by eexists|done]. Qed.

(** A keyword becomes the attribute of that name. *)
Lemma new_getattr c kwargs e k v :
  new c kwargs = Ok e → kwargs !! k = Some v → getattr e k = Ok v.
Proof.
  intros [Hall ->]%new_inv Hk. unfold getattr. simpl.
  rewrite assoc_fields by (by eapply Hall). by rewrite Hk.
Qed.

(** An attribute of a constructed record is a declared field, holding the
    keyword of that name or [None]. *)
Lemma new_assoc c kwargs e k :
  new c kwargs = Ok e →
  assoc k (attrs e) =
    if decide (k ∈ fields_of c) then Some (default VNone (kwargs !! k))
    else None.
Proof.
  intros [_ ->]%new_inv. simpl. destruct (decide _).
  - by apply assoc_fields.
  - by apply assoc_fields_None.
Qed.

(** *** Insert *)

Lemma materialise_includes t r w : r ⊆ materialise t r w.
Proof.
  unfold materialise. destruct (r !! primary_key t) eqn:H; [done|].
  by apply insert_subseteq.
Qed.

Lemma materialise_identifier t (r : row) w :
  (∀ k v, r !! k = Some v → v ≠ VNone) →
  ∃ id, materialise t r w !! primary_key t = Some id ∧ id ≠ VNone.
Proof.
  intros Hr. unfold materialise. destruct (r !! primary_key t) eqn:H.
  - exists v. split; [done|by eapply Hr].
  - exists (VInt (next_id w)). split; [apply lookup_insert_eq|done].
Qed.

(** What decoding the stored row gives, whether the row is passed whole or
    without its null columns. *)
Lemma decode_stored c (stored kwargs : row) pk id :
  stored !! pk = Some id → id ≠ VNone →
  kwargs = stored ∨ kwargs = filter (fun kv => kv.2 ≠ VNone) stored →
  (∀ e, new c kwargs = Ok e → getattr e pk = Ok id) ∧
  (map_Forall (fun k _ => k ∈ fields_of c) stored → ∃ e, new c kwargs = Ok e).
Proof.
  intros Hpk Hid Hkw. split.
  - intros e He. apply (new_getattr c kwargs); [done|].
    destruct Hkw as [->| ->]; [done|]. by apply map_lookup_filter_Some.
  - intros Hall. apply new_total.
    destruct Hkw as [->| ->]; [done|].
    intros k v [Hk _]%map_lookup_filter_Some. by eapply Hall.
Qed.

(** The two ways a checked insert ends: stopped by the check with only its
    selects sent, or through the insert and the decoding of the stored
    row. *)
Lemma checked_add_run table result_class add data w :
  (table, result_class, add) ∈ checked_add_ops →
  let checked :=
    log_all (check_calls table (to_dict data) (_unique_fields data)) w in
  let stored := materialise table (to_dict data) checked in
  (has_duplicate table data w ∧
   add data w = (Raise DuplicateEntryError, checked)) ∨
  (¬ has_duplicate table data w ∧
   ∃ kwargs,
     (kwargs = stored ∨ kwargs = filter (fun kv => kv.2 ≠ VNone) stored) ∧
     add data w =
       (new (result_class data) kwargs,
        log (CInsert table (to_dict data))
          (bump_id (set_table table (table_rows table w ++ [stored])
                      checked)))).
Proof.
  intros H checked stored. unfold checked_add_ops in H.
  rewrite !elem_of_cons, elem_of_nil in H.
  destruct H as [H|[H|[H|[]]]]; simplify_eq;
    [unfold add_user|unfold add_message|unfold add_file];
    rewrite bind_run;
    (match goal with
     | |- context [_check_duplicates ?t data w] =>
         destruct (check_duplicates_run t data w) as [[Hdup ->]|[Hno ->]]
     end;
     [left; by split|right; split; [done|]]).
  - exists stored. split; [by left|done].
  - exists (filter (fun kv => kv.2 ≠ VNone) stored). split; [by right|done].
  - exists stored. split; [by left|done].
Qed.

(** C2 (amended): [add_user], [add_message] and [add_file] raise
    [DuplicateEntryError] exactly when one of the input's populated unique
    fields already has a matching row in the table.  When they do, only the
    selects of the check were sent and nothing was inserted.  When they do
    not, the input's dictionary is inserted, the stored row holds a
    non-null identifier, any record returned carries that identifier, and a
    record is returned whenever the class declares the stored columns. *)
Theorem checked_add_duplicate_iff
    (table : string) (result_class : entity -> class)
    (add : entity -> M entity) (data : entity) (w : world) :
  (table, result_class, add) ∈ checked_add_ops →
  let checked :=
    log_all (check_calls table (to_dict data) (_unique_fields data)) w in
  ((add data w).1 = Raise DuplicateEntryError ↔ has_duplicate table data w) ∧
  (has_duplicate table data w → (add data w).2 = checked) ∧
  (¬ has_duplicate table data w →
   ∃ stored id,
     (add data w).2 =
       log (CInsert table (to_dict data))
         (bump_id (set_table table (table_rows table w ++ [stored]) checked)) ∧
     to_dict data ⊆ stored ∧
     stored !! primary_key table = Some id ∧ id ≠ VNone ∧
     (∀ e, (add data w).1 = Ok e → getattr e (primary_key table) = Ok id) ∧
     (map_Forall (fun k _ => k ∈ fields_of (result_class data)) stored →
      ∃ e, (add data w).1 = Ok e)).
Proof.
  intros Hop checked.
  destruct (checked_add_run table result_class add data w Hop)
    as [[Hdup Hrun]|(Hno & kwargs & Hkw & Hrun)]; fold checked in Hrun.
  - rewrite Hrun. repeat split; try done.
  - destruct (materialise_identifier table (to_dict data) checked)
      as (id & Hid & Hne); [apply to_dict_populated|].
    destruct (decode_stored (result_class data) _ kwargs _ id Hid Hne Hkw)
      as [Hget Htot].
    rewrite Hrun. simpl. repeat split; try done.
    + intros He. exfalso. unfold new in He. by destruct (decide _).
    + intros _. eexists _, id. repeat split; try done.
      apply materialise_includes.
Qed.

(** *** Delete *)

Lemma delete_entry_run obj deletion_key key v w :
  deletion_target obj deletion_key key v →
  let table := obj_to_table (cls obj) in
  let matching := filter (row_matches key v) (table_rows table w) in
  _delete_entry obj deletion_key w =
    (if decide (length matching = 0) then
       Raise (NoEntryFoundError table key v)
     else Ok (length matching),
     log (CDelete table key v)
       (set_table table
          (filter (fun r => ¬ row_matches key v r) (table_rows table w)) w)).
Proof.
  intros [Hv Hkey] table matching. unfold _delete_entry.
  assert (Hresolved : ∀ B (k : string -> M B),
    bind (match deletion_key with
          | Some k0 => ret k0
          | None =>
              let! k0 := lift (item0 (_unique_fields obj)) in
              let! v0 := lift (getattr obj k0) in
              if decide (v0 = VNone) then
                raise (ValueError (NoDeletionValue k0))
              else ret k0
          end) k w = k key w).
  { intros B k. destruct Hkey as [->|(-> & [rest Hrest] & Hne)]; [done|].
    rewrite bind_run, bind_run. rewrite Hrest. simpl.
    rewrite bind_run. unfold lift, getattr. rewrite Hv.
    by destruct (decide (v = VNone)). }
  rewrite Hresolved. rewrite bind_run. unfold lift, getattr. rewrite Hv.
  rewrite bind_run. unfold delete_eq. fold table. fold matching.
  by destruct (decide (length matching = 0)).
Qed.

(** C4 (amended): [_delete_entry] raises [NoEntryFoundError] when no stored
    row matches its target key, and otherwise removes the matching rows and
    returns their number, at least 1.  [delete_user] raises
    [NoEntryFoundError] when its lookup matches no stored row; when the
    lookup matches exactly one row it deletes by that row's [user_id] and
    returns the pair [(0, "User deleted successfully")], not a count. *)
Theorem delete_not_found_or_done :
  (∀ obj deletion_key key v w,
     deletion_target obj deletion_key key v →
     let table := obj_to_table (cls obj) in
     let matching := filter (row_matches key v) (table_rows table w) in
     (matching = [] →
        (_delete_entry obj deletion_key w).1
        = Raise (NoEntryFoundError table key v)) ∧
     (matching ≠ [] →
        (_delete_entry obj deletion_key w).1 = Ok (length matching) ∧
        1 ≤ length matching ∧
        table_rows table (_delete_entry obj deletion_key w).2
        = filter (fun r => ¬ row_matches key v r) (table_rows table w))) ∧
  (∀ user f v w,
     has_unique_attrs user → first_populated user f v →
     let matching := filter (row_matches f v) (table_rows "users" w) in
     (matching = [] →
        (delete_user user w).1 = Raise (NoEntryFoundError "users" f v)) ∧
     (∀ r full user_id,
        matching = [r] → new User r = Ok full →
        getattr full "user_id" = Ok user_id →
        (delete_user user w).1 = Ok (0%Z, "User deleted successfully") ∧
        table_rows "users" (delete_user user w).2
        = filter (fun r => ¬ row_matches "user_id" user_id r)
            (table_rows "users" w))).
Proof.
  split.
  - intros obj deletion_key key v w Htarget table matching.
    rewrite (delete_entry_run obj deletion_key key v w Htarget).
    fold table. fold matching. split.
    + by intros ->.
    + intros Hne. destruct matching as [|r l]; [done|].
      repeat split; [simpl; lia|].
      unfold table_rows, log, set_table. simpl. by rewrite lookup_insert_eq.
  - intros user f v w Hall Hfirst matching.
    pose proof (get_obj_info_run "users" user f v w Hall Hfirst) as Hrun.
    fold matching in Hrun. unfold delete_user, get_user. split.
    + intros Hnil. rewrite Hnil in Hrun.
      by rewrite (bind_raise _ _ _ _ _ (bind_raise _ _ _ _ _ Hrun)).
    + intros r full user_id Hone Hfull Hid. rewrite Hone in Hrun.
      rewrite (bind_ok _ _ w full (log (CSelect "users" f v) w)).
      2: { rewrite (bind_ok _ _ _ _ _ Hrun). unfold lift. by rewrite Hfull. }
      rewrite (bind_lift_ok _ _ _ _ Hid). rewrite bind_run. simpl.
      split; [done|].
      unfold table_rows. simpl. by rewrite lookup_insert_eq.
Qed.

(** *** Update *)

Lemma assoc_populated_fields (g : string -> value) fields k v :
  assoc k (filter populated ((fun f => (f, g f)) <$> fields)) = Some v ↔
  k ∈ fields ∧ g k = v ∧ v ≠ VNone.
Proof.
  induction fields as [|f fields IH]; simpl.
  - split; [done|]. by intros [?%elem_of_nil _].
  - rewrite filter_cons. destruct (decide (populated (f, g f))) as [Hp|Hp].
    + simpl. destruct (decide (f = k)) as [->|Hne].
      * split; [intros [= <-]; repeat split; [left|done]|].
        by intros (_ & -> & _).
      * rewrite IH, elem_of_cons. split.
        -- intros (Hin & Hg & Hv). repeat split; [by right|done|done].
        -- intros ([Hk|Hin] & Hg & Hv); [congruence|done].
    + rewrite IH, elem_of_cons. unfold populated in Hp. simpl in Hp.
      split.
      * intros (Hin & Hg & Hv). repeat split; [by right|done|done].
      * intros ([->|Hin] & Hg & Hv); [|done].
        exfalso. apply Hp. congruence.
Qed.

(** The dictionary of a constructed record is its keywords without the
    null ones. *)
Lemma to_dict_new c kwargs e :
  new c kwargs = Ok e → to_dict e = filter (fun kv => kv.2 ≠ VNone) kwargs.
Proof.
  intros [Hall ->]%new_inv. apply map_eq. intros k. apply option_eq. intros v.
  unfold to_dict. simpl.
  rewrite list_to_map_assoc, assoc_populated_fields, map_lookup_filter_Some.
  simpl. split.
  - intros (Hin & Hg & Hv). split; [|done].
    destruct (kwargs !! k); simpl in Hg; congruence.
  - intros [Hk Hv]. repeat split; [by eapply Hall|by rewrite Hk|done].
Qed.

Lemma column_filter (m : row) k :
  column (filter (fun kv => kv.2 ≠ VNone) m) k = column m k.
Proof.
  unfold column. destruct (filter _ m !! k) as [x|] eqn:H.
  - apply map_lookup_filter_Some in H as [-> _]. done.
  - apply map_lookup_filter_None in H as [->|H]; [done|].
    destruct (m !! k) as [x|]; [|done]. simpl.
    specialize (H x eq_refl). simpl in H.
    destruct (decide (x = VNone)) as [->|]; done.
Qed.

Lemma changelog_row_records timestamp row_id field old_value new_value :
  records (changelog_row timestamp row_id field old_value new_value)
    timestamp row_id field old_value new_value.
Proof.
  unfold records, changelog_row. rewrite !column_filter.
  unfold column, changelog_kwargs. by simplify_map_eq.
Qed.

Lemma changelog_kwargs_declared timestamp row_id field old_value new_value :
  Forall (fun k => k ∈ fields_of Changelog) changelog_columns →
  map_Forall (fun k _ => k ∈ fields_of Changelog)
    (changelog_kwargs timestamp row_id field old_value new_value).
Proof.
  unfold changelog_columns, changelog_kwargs. intros H.
  repeat (apply Forall_cons in H as [? H]).
  repeat (apply map_Forall_insert_2; [done|]). apply map_Forall_empty.
Qed.

(** One turn of the loop inserts the row of that field. *)
Lemma log_change_run full upd timestamp field row_id old_value new_value w :
  Forall (fun k => k ∈ fields_of Changelog) changelog_columns →
  getattr full "user_id" = Ok row_id →
  assoc field (attrs upd) = Some new_value →
  assoc field (attrs full) = Some old_value →
  log_change full upd timestamp field w =
    (Ok tt,
     (insert "changelog"
        (changelog_row timestamp row_id field old_value new_value) w).2).
Proof.
  intros Hcols Hid Hnew Hold. unfold log_change.
  rewrite (bind_lift_ok _ _ _ _ Hid).
  rewrite (bind_lift_ok _ _ _ new_value) by (unfold getattr; by rewrite Hnew).
  rewrite (bind_lift_ok _ _ _ old_value) by (unfold getattr; by rewrite Hold).
  destruct (new_total Changelog
              (changelog_kwargs timestamp row_id field old_value new_value))
    as [e He]; [by apply changelog_kwargs_declared|].
  rewrite (bind_lift_ok _ _ _ _ He).
  unfold add_changelog. rewrite (to_dict_new _ _ _ He). reflexivity.
Qed.

Lemma for_each_log_change full upd timestamp row_id fields w :
  Forall (fun k => k ∈ fields_of Changelog) changelog_columns →
  getattr full "user_id" = Ok row_id →
  Forall (fun f => is_Some (assoc f (attrs full)) ∧
                   is_Some (assoc f (attrs upd))) fields →
  for_each fields (log_change full upd timestamp) w =
    (Ok tt,
     insert_all "changelog"
       ((fun f => changelog_row timestamp row_id f (attr full f) (attr upd f))
          <$> fields) w).
Proof.
  intros Hcols Hid Hfields. revert w.
  induction Hfields as [|f fields [[old Hold] [new' Hnew]] _ IH]; intros w;
    [done|].
  simpl.
  rewrite (bind_ok _ _ _ _ _
             (log_change_run full upd timestamp f row_id old new' w
                Hcols Hid Hnew Hold)).
  rewrite IH. unfold attr. by rewrite Hold, Hnew.
Qed.

Lemma insert_all_calls t rs w :
  calls (insert_all t rs w) = calls w ++ (CInsert t <$> rs).
Proof.
  revert w. induction rs as [|r rs IH]; intros w; simpl.
  - by rewrite app_nil_r.
  - rewrite IH. simpl. by rewrite <- app_assoc.
Qed.

Lemma table_rows_insert t r w :
  table_rows t (insert t r w).2 = table_rows t w ++ [materialise t r w].
Proof. unfold table_rows at 1. simpl. by rewrite lookup_insert_eq. Qed.

Lemma table_rows_update_other t t' changes key v w :
  t ≠ t' → table_rows t' (update_eq t changes key v w).2 = table_rows t' w.
Proof. intros Hne. unfold table_rows. simpl. by rewrite lookup_insert_ne. Qed.

Lemma insert_all_table t rs w :
  ∃ stored,
    table_rows t (insert_all t rs w) = table_rows t w ++ stored ∧
    Forall2 (⊆) rs stored.
Proof.
  revert w. induction rs as [|r rs IH]; intros w.
  - exists []. by rewrite app_nil_r.
  - change (insert_all t (r :: rs) w) with (insert_all t rs (insert t r w).2).
    destruct (IH (insert t r w).2) as (stored & Hrows & Hsub).
    exists (materialise t r w :: stored). split.
    + rewrite Hrows, table_rows_insert. by rewrite <- app_assoc.
    + constructor; [apply materialise_includes|done].
Qed.

Lemma find_different_fields_differ self other f :
  f ∈ find_different_fields self other →
  ∃ v, (f, v) ∈ attrs self ∧ assoc f (attrs other) ≠ Some v.
Proof.
  unfold find_different_fields. intros ([f' v] & -> & Hin)%list_elem_of_fmap.
  apply list_elem_of_filter in Hin as [Hne Hin]. by exists v.
Qed.

Lemma get_user_run user f v r full w :
  has_unique_attrs user → first_populated user f v →
  filter (row_matches f v) (table_rows "users" w) = [r] →
  new User r = Ok full →
  get_user user w = (Ok full, log (CSelect "users" f v) w).
Proof.
  intros Hall Hfirst Hone Hfull.
  pose proof (get_obj_info_run "users" user f v w Hall Hfirst) as Hrun.
  rewrite Hone in Hrun. unfold get_user.
  rewrite (bind_ok _ _ _ _ _ Hrun). unfold lift. by rewrite Hfull.
Qed.

(** The attributes of a constructed record are its declared fields, each
    with one value. *)
Lemma new_attr_elem c kwargs e g v :
  new c kwargs = Ok e → (g, v) ∈ attrs e →
  g ∈ fields_of c ∧ assoc g (attrs e) = Some v.
Proof.
  intros He Hin. pose proof (new_assoc c kwargs e g He) as Hassoc.
  apply new_inv in He as [_ ->]. simpl in Hin.
  apply list_elem_of_fmap in Hin as (g' & [= -> ->] & Hin).
  split; [done|]. rewrite Hassoc. by destruct (decide _).
Qed.

Lemma changed_fields_facts c kwargs full upd :
  new c kwargs = Ok full → has_attrs (fields_of c) upd →
  Forall (fun g => (is_Some (assoc g (attrs full)) ∧
                    is_Some (assoc g (attrs upd))) ∧
                   attr full g ≠ attr upd g)
    (find_different_fields full upd).
Proof.
  intros Hfull Hupd. apply Forall_forall. intros g Hg.
  apply find_different_fields_differ in Hg as (v0 & Hin & Hne).
  destruct (new_attr_elem c kwargs full g v0 Hfull Hin) as [Hfield Hassoc].
  unfold has_attrs in Hupd. rewrite Forall_forall in Hupd.
  destruct (Hupd g Hfield) as [n Hn].
  unfold attr. rewrite Hassoc, Hn. simpl.
  repeat split; [by eexists|by eexists|congruence].
Qed.

Lemma unchanged_fields c kwargs full upd :
  new c kwargs = Ok full →
  (∀ g, assoc g (attrs upd) = assoc g (attrs full)) →
  find_different_fields full upd = [].
Proof.
  intros Hfull Hsame.
  destruct (find_different_fields full upd) as [|g l] eqn:Hdiff; [done|].
  assert (g ∈ find_different_fields full upd) as Hg by (rewrite Hdiff; left).
  apply find_different_fields_differ in Hg as (v0 & Hin & Hne).
  destruct (new_attr_elem c kwargs full g v0 Hfull Hin) as [_ Hassoc].
  rewrite Hsame in Hne. done.
Qed.

(** C1 (amended): for [update_user], when the lookup finds the stored
    record and the update record differs from it in the fields [changed],
    one changelog row per changed field is inserted, each recording the
    table name, the row identifier, the column name, the previous and the
    new value and the UTC timestamp; the changelog table grows by exactly
    that many rows, and all these inserts are issued after the lookup and
    before the single update call. *)
Theorem update_user_logs_each_change
    (user_data user_update full : entity) (f : string) (v user_id : value)
    (r : row) (w : world) :
  has_unique_attrs user_data → first_populated user_data f v →
  filter (row_matches f v) (table_rows "users" w) = [r] →
  new User r = Ok full →
  getattr full "user_id" = Ok user_id →
  has_attrs (fields_of User) user_update →
  Forall (fun k => k ∈ fields_of Changelog) changelog_columns →
  let changed := find_different_fields full user_update in
  let timestamp := datetime_str (utc_clock w) in
  let sent :=
    (fun g => changelog_row timestamp user_id g
                (attr full g) (attr user_update g)) <$> changed in
  let after := (update_user user_data user_update w).2 in
  Forall (fun g => attr full g ≠ attr user_update g) changed ∧
  Forall2 (fun g row => records row timestamp user_id g
                          (attr full g) (attr user_update g)) changed sent ∧
  calls after =
    calls w ++ [CSelect "users" f v] ++ (CInsert "changelog" <$> sent) ++
    (if decide (changed = []) then []
     else [CUpdate "users" (to_dict user_update) "user_id" user_id]) ∧
  ∃ stored,
    table_rows "changelog" after = table_rows "changelog" w ++ stored ∧
    Forall2 (⊆) sent stored ∧
    length stored = length changed.
Proof.
  intros Hall Hfirst Hone Hfull Hid Hupd Hcols changed timestamp sent after.
  pose proof (changed_fields_facts User r full user_update Hfull Hupd)
    as Hfacts.
  fold changed in Hfacts. apply Forall_and in Hfacts as [Hsome Hdiffer].
  split; [done|]. split.
  { subst sent. clear. induction changed as [|g l IH]; constructor; [|done].
    apply changelog_row_records. }
  pose proof (get_user_run user_data f v r full w Hall Hfirst Hone Hfull)
    as Hget.
  assert (Hrun : update_user user_data user_update w =
    match changed with
    | [] => (Ok (1%Z, "No fields were updated"), log (CSelect "users" f v) w)
    | _ :: _ =>
        (Ok (0%Z, "User updated successfully"),
         (update_eq "users" (to_dict user_update) "user_id" user_id
            (insert_all "changelog" sent (log (CSelect "users" f v) w))).2)
    end).
  { unfold update_user. rewrite (bind_ok _ _ _ _ _ Hget). fold changed.
    destruct changed as [|g l] eqn:Hchanged; [done|].
    rewrite bind_run. unfold utcnow.
    rewrite (bind_ok _ _ _ _ _
               (for_each_log_change full user_update _ user_id (g :: l) _
                  Hcols Hid Hsome)).
    by rewrite (bind_lift_ok _ _ _ _ Hid). }
  subst after. rewrite Hrun.
  destruct (insert_all_table "changelog" sent (log (CSelect "users" f v) w))
    as (stored & Hrows & Hsub).
  assert (length stored = length changed) as Hlen.
  { rewrite <- (Forall2_length _ _ _ Hsub). subst sent. by rewrite length_fmap. }
  destruct changed as [|g l] eqn:Hchanged.
  - split; [done|]. exists []. by rewrite app_nil_r.
  - split.
    + simpl. rewrite insert_all_calls. simpl. by rewrite <- !app_assoc.
    + exists stored. split; [|done]. cbn [snd].
      by rewrite table_rows_update_other.
Qed.

(** C5 (amended): for [update_user], when the update record is
    field-for-field equal to the stored record, the only request is the
    select of the lookup: no update and no changelog insertion is sent, and
    the result is [(1, "No fields were updated")], which is not the result
    of a performed update. *)
Theorem update_user_unchanged_is_noop
    (user_data user_update full : entity) (f : string) (v : value)
    (r : row) (w : world) :
  has_unique_attrs user_data → first_populated user_data f v →
  filter (row_matches f v) (table_rows "users" w) = [r] →
  new User r = Ok full →
  (∀ g, assoc g (attrs user_update) = assoc g (attrs full)) →
  update_user user_data user_update w
  = (Ok (1%Z, "No fields were updated"), log (CSelect "users" f v) w) ∧
  (1%Z, "No fields were updated") ≠ (0%Z, "User updated successfully").
Proof.
  intros Hall Hfirst Hone Hfull Hsame. split; [|done].
  unfold update_user.
  rewrite (bind_ok _ _ _ _ _
             (get_user_run user_data f v r full w Hall Hfirst Hone Hfull)).
  by rewrite (unchanged_fields User r full user_update Hfull Hsame).
Qed.

(** *** The operations without a check *)

(** X8: [add_draft], [add_attachment] and [add_address] never call
    [_check_duplicates]: for no input and no state of the tables does one
    of them end in [DuplicateEntryError]. *)
Lemma unchecked_add_never_duplicate data w :
  (add_draft data w).1 ≠ Raise DuplicateEntryError ∧
  (add_attachment data w).1 ≠ Raise DuplicateEntryError ∧
  (add_address data w).1 ≠ Raise DuplicateEntryError.
Proof.
  unfold add_draft, add_attachment, add_address, new.
  repeat split; rewrite bind_run; simpl.
  - by destruct (decide _).
  - by destruct (decide _).
  - unfold getattr. destruct (assoc "user_id" (attrs data)) as [v|]; [|done].
    destruct (decide (v = VNone)); [done|].
    rewrite bind_run. simpl. by destruct (decide _).
Qed.

(** [delete_address] does not look at what the delete returned: with an
    identifier it reports success whether or not a row was removed. *)
Lemma delete_address_run address address_id w :
  assoc "address_id" (attrs address) = Some address_id →
  address_id ≠ VNone →
  delete_address address w =
    (Ok (0%Z, "Address deleted successfully"),
     (delete_eq "addresses" "address_id" address_id w).2).
Proof.
  intros Hid Hne. unfold delete_address.
  rewrite (bind_lift_ok _ _ _ address_id) by (unfold getattr; by rewrite Hid).
  by destruct (decide (address_id = VNone)).
Qed.

(** *** Blob upload *)

Lemma string_app_assoc (a b c : string) : (a +:+ b) +:+ c = a +:+ (b +:+ c).
Proof.
  induction a as [|x a IH]; [reflexivity|].
  change (String x ((a +:+ b) +:+ c) = String x (a +:+ (b +:+ c))).
  now rewrite IH.
Qed.

(** What [upload_file] does for a supported content type. *)
Lemma upload_file_supported filebytes user_id mime_type suffix w :
  (mime_type = "audio/ogg" ∧ suffix = ".ogg") ∨
  (mime_type = "application/pdf" ∧ suffix = ".pdf") →
  let path :=
    "memos/" +:+ user_id +:+ "/" +:+ strftime_path (local_clock w)
    +:+ suffix in
  upload_file filebytes user_id mime_type w =
    (Ok path,
     log (CUpload bucket path filebytes mime_type)
       (put_blob bucket path filebytes mime_type w)).
Proof.
  intros [[-> ->] | [-> ->]]; reflexivity.
Qed.

(** C6 (amended): for each supported MIME type, every user identifier and
    every payload, [upload_file] returns exactly
    [memos/<user_id>/<timestamp><suffix>], where the timestamp is the
    reading of the local clock ([datetime.now()], not the UTC clock)
    formatted as [%Y-%m-%d_%H-%M-%S] and the suffix is [.ogg] for
    [audio/ogg] and [.pdf] for [application/pdf]; the payload is uploaded
    to the bucket under that path with that content type. *)
Theorem upload_file_returns_local_time_path
    (filebytes : list byte) (user_id mime_type : string) (w : world) :
  mime_type = "audio/ogg" ∨ mime_type = "application/pdf" →
  ∃ suffix path,
    ((mime_type = "audio/ogg" ∧ suffix = ".ogg") ∨
     (mime_type = "application/pdf" ∧ suffix = ".pdf")) ∧
    path = "memos/" +:+ user_id +:+ "/" +:+ strftime_path (local_clock w)
           +:+ suffix ∧
    upload_file filebytes user_id mime_type w =
      (Ok path,
       log (CUpload bucket path filebytes mime_type)
         (put_blob bucket path filebytes mime_type w)).
Proof.
  intros [Hm | Hm].
  - exists ".ogg". eexists. split; [left; done|]. split; [reflexivity|].
    apply upload_file_supported. left; done.
  - exists ".pdf". eexists. split; [right; done|]. split; [reflexivity|].
    apply upload_file_supported. right; done.
Qed.

(** C7: with [audio/ogg] the returned path ends in [.ogg], with
    [application/pdf] it ends in [.pdf], and with any other MIME type
    [upload_file] raises its unsupported-type error ([ValueError]) and
    leaves the world as it was: no request reaches the blob store. *)
Theorem upload_file_suffix_or_unsupported
    (filebytes : list byte) (user_id mime_type : string) (w : world) :
  (mime_type = "audio/ogg" →
     ∃ stem, (upload_file filebytes user_id mime_type w).1
             = Ok (stem +:+ ".ogg")) ∧
  (mime_type = "application/pdf" →
     ∃ stem, (upload_file filebytes user_id mime_type w).1
             = Ok (stem +:+ ".pdf")) ∧
  (mime_type ≠ "audio/ogg" → mime_type ≠ "application/pdf" →
     upload_file filebytes user_id mime_type w
     = (Raise (ValueError (MimeNotSupported mime_type)), w)).
Proof.
  repeat split.
  - intros ->.
    exists ("memos/" +:+ user_id +:+ "/" +:+ strftime_path (local_clock w)).
    rewrite (upload_file_supported _ _ _ ".ogg") by (left; done).
    cbv zeta. unfold fst. f_equal. now rewrite !string_app_assoc.
  - intros ->.
    exists ("memos/" +:+ user_id +:+ "/" +:+ strftime_path (local_clock w)).
    rewrite (upload_file_supported _ _ _ ".pdf") by (right; done).
    cbv zeta. unfold fst. f_equal. now rewrite !string_app_assoc.
  - intros H1 H2. unfold upload_file, bind.
    destruct (decide (mime_type = "audio/ogg")); [done|].
    destruct (decide (mime_type = "application/pdf")); [done|].
    reflexivity.
Qed.

(** *** Guards *)

(** X1: [add_address], [delete_address], [register_message],
    [register_voice_message], [register_draft] and [download_draft] test
    the identifier they need first: when it is [None] they raise the
    [ValueError] naming it and the world is untouched, so nothing was sent
    to the tables or to the bucket. *)
Theorem missing_identifier_stops_before_any_call :
  (∀ address w,
     assoc "user_id" (attrs address) = Some VNone →
     add_address address w
     = (Raise (ValueError (MissingField "Address" "user_id")), w)) ∧
  (∀ address w,
     assoc "address_id" (attrs address) = Some VNone →
     delete_address address w
     = (Raise (ValueError (MissingField "Address" "address_id")), w)) ∧
  (∀ user sent_by mime body command transcript w,
     assoc "user_id" (attrs user) = Some VNone →
     register_message user sent_by mime body command transcript w
     = (Raise (ValueError (MissingField "User" "user_id")), w)) ∧
  (∀ filebytes message w,
     assoc "user_id" (attrs message) = Some VNone →
     register_voice_message filebytes message w
     = (Raise (ValueError (MissingField "Message" "user_id")), w)) ∧
  (∀ draft pdf_bytes w,
     assoc "user_id" (attrs draft) = Some VNone →
     register_draft draft pdf_bytes w
     = (Raise (ValueError (MissingField "Draft" "user_id")), w)) ∧
  (∀ draft w,
     assoc "blob_path" (attrs draft) = Some VNone →
     download_draft draft w
     = (Throws (Client (ValueError (MissingField "Draft" "blob_path"))), w)).
Proof.
  repeat split; intros;
    unfold add_address, delete_address, register_message,
      register_voice_message, register_draft, download_draft;
    try rewrite bind_run; unfold lift, getattr;
    match goal with H : assoc _ _ = _ |- _ => by rewrite H end.
Qed.

(** X2: [add_order] walks its required fields in the order [user_id],
    [draft_id], [address_id], [blob_path]; the first one that is [None]
    is the one its [ValueError] names, and nothing has been sent by then,
    not even the duplicate check. *)
Theorem add_order_names_first_missing_field
    (order : entity) (before after : list string) (g : string) (w : world) :
  order_required = before ++ g :: after →
  Forall (fun k => ∃ v, assoc k (attrs order) = Some v ∧ v ≠ VNone) before →
  assoc g (attrs order) = Some VNone →
  add_order order w = (Raise (ValueError (MissingField "Order" g)), w).
Proof.
  intros Hreq Hbefore Hg. unfold add_order. rewrite Hreq.
  apply bind_raise. clear Hreq.
  induction Hbefore as [|k before (v & Hk & Hv) _ IH]; simpl.
  - rewrite bind_run, bind_run. unfold lift, getattr. by rewrite Hg.
  - rewrite bind_run, bind_run. unfold lift, getattr. rewrite Hk.
    destruct (decide (v = VNone)); [done|]. exact IH.
Qed.

(** *** What the duplicate check sends *)

Lemma check_calls_cons table (data_dict : row) key keys :
  check_calls table data_dict (key :: keys) =
    match data_dict !! key with
    | Some v => CSelect table key v :: check_calls table data_dict keys
    | None => check_calls table data_dict keys
    end.
Proof. unfold check_calls. simpl. by destruct (data_dict !! key). Qed.

Lemma check_calls_select table data_dict keys :
  Forall is_select (check_calls table data_dict keys).
Proof.
  induction keys as [|key keys IH]; [constructor|].
  rewrite check_calls_cons. destruct (data_dict !! key); [by constructor|done].
Qed.

Lemma check_calls_length table (data_dict : row) keys :
  length (check_calls table data_dict keys)
  = length (filter (fun key => is_Some (data_dict !! key)) keys).
Proof.
  induction keys as [|key keys IH]; [done|].
  rewrite check_calls_cons, filter_cons.
  destruct (data_dict !! key) eqn:Hk.
  - destruct (decide (is_Some (Some v))) as [_|Hn]; [simpl; by rewrite IH|].
    by destruct Hn.
  - destruct (decide (is_Some None)) as [[? ?]|_]; [done|exact IH].
Qed.

(** X3: whatever it finds, [_check_duplicates] only adds selects to what
    was sent, one for each unique field that is populated in the input,
    also after a first duplicate has been found; tables, bucket and
    identifiers stay as they were. *)
Theorem check_duplicates_only_selects
    (table : string) (data : entity) (w : world) :
  let sent := check_calls table (to_dict data) (_unique_fields data) in
  (_check_duplicates table data w).2 = log_all sent w ∧
  Forall is_select sent ∧
  length sent
  = length (filter (fun key => is_Some (to_dict data !! key))
              (_unique_fields data)).
Proof.
  intros sent. split; [|split].
  - by destruct (check_duplicates_run table data w) as [[_ ->]|[_ ->]].
  - apply check_calls_select.
  - apply check_calls_length.
Qed.

(** X7: with an identifier, [delete_address] sends one delete filtered on
    [address_id], which removes exactly the rows holding it, and reports
    success without looking at what was removed: also when no row held
    it. *)
Theorem delete_address_succeeds_whatever_matched
    (address : entity) (address_id : value) (w : world) :
  assoc "address_id" (attrs address) = Some address_id →
  address_id ≠ VNone →
  let after := (delete_address address w).2 in
  (delete_address address w).1 = Ok (0%Z, "Address deleted successfully") ∧
  calls after = calls w ++ [CDelete "addresses" "address_id" address_id] ∧
  table_rows "addresses" after
  = filter (fun r => ¬ row_matches "address_id" address_id r)
      (table_rows "addresses" w) ∧
  (filter (row_matches "address_id" address_id) (table_rows "addresses" w)
   = [] →
   table_rows "addresses" after = table_rows "addresses" w).
Proof.
  intros Hid Hne after. subst after.
  rewrite (delete_address_run address address_id w Hid Hne).
  repeat split.
  - unfold table_rows. simpl. by rewrite lookup_insert_eq.
  - intros Hnone. unfold table_rows at 1. simpl. rewrite lookup_insert_eq.
    simpl. generalize dependent (table_rows "addresses" w).
    induction l as [|r l IH]; [done|].
    rewrite !filter_cons.
    destruct (decide (row_matches "address_id" address_id r)) as [Hm|Hm].
    + done.
    + intros Hl. destruct (decide (¬ row_matches "address_id" address_id r));
        [|done].
      by rewrite IH.
Qed.

(** *** Insert, then look up or insert again *)

Lemma to_dict_lookup_populated obj f v :
  assoc f (attrs obj) = Some v → v ≠ VNone → to_dict obj !! f = Some v.
Proof.
  unfold to_dict. rewrite list_to_map_assoc.
  induction (attrs obj) as [|[k x] l IH]; simpl; [done|].
  intros Hf Hv. rewrite filter_cons.
  destruct (decide (k = f)) as [->|Hne].
  - injection Hf as ->. destruct (decide (populated (f, v))) as [_|Hn].
    + simpl. by destruct (decide (f = f)).
    + by destruct Hn.
  - destruct (decide (populated (k, x))); [|by apply IH].
    simpl. destruct (decide (k = f)); [done|by apply IH].
Qed.

Lemma first_populated_in_dict obj f v :
  first_populated obj f v →
  f ∈ _unique_fields obj ∧ to_dict obj !! f = Some v.
Proof.
  intros (before & after & Heq & _ & Hf & Hv). split.
  - rewrite Heq. apply elem_of_app. right. left.
  - by apply to_dict_lookup_populated.
Qed.

(** Without a duplicate, the only row matching a populated unique field
    after the insert is the row just stored. *)
Lemma filter_after_insert table data f v w stored :
  ¬ has_duplicate table data w →
  f ∈ _unique_fields data → to_dict data !! f = Some v →
  to_dict data ⊆ stored →
  filter (row_matches f v) (table_rows table w ++ [stored]) = [stored].
Proof.
  intros Hno Hin Hv Hsub. rewrite filter_app.
  assert (filter (row_matches f v) (table_rows table w) = []) as ->.
  { destruct (filter _ _) as [|r l] eqn:Hf; [done|].
    assert (r ∈ filter (row_matches f v) (table_rows table w)) as Hr
      by (rewrite Hf; left).
    apply list_elem_of_filter in Hr as [Hm Hr].
    destruct Hno. by exists f, v, r. }
  rewrite filter_cons.
  destruct (decide (row_matches f v stored)) as [_|Hn]; [done|].
  destruct Hn. by eapply lookup_weaken.
Qed.

Lemma table_rows_after_insert table r w checked :
  table_rows table
    (log (CInsert table r)
       (bump_id (set_table table
                   (table_rows table w ++ [materialise table r checked])
                   checked)))
  = table_rows table w ++ [materialise table r checked].
Proof. unfold table_rows at 1. simpl. by rewrite lookup_insert_eq. Qed.

(** X4: after [add_user], [add_message] or [add_file] has inserted an
    input with a populated unique field, inserting the same input again
    raises [DuplicateEntryError] and leaves the table as the first insert
    left it: one row longer than at the start. *)
Theorem checked_add_twice_is_refused
    (table : string) (result_class : entity -> class)
    (add : entity -> M entity) (data : entity) (w : world) :
  (table, result_class, add) ∈ checked_add_ops →
  ¬ has_duplicate table data w →
  (∃ key v, key ∈ _unique_fields data ∧ to_dict data !! key = Some v) →
  let once := (add data w).2 in
  (add data once).1 = Raise DuplicateEntryError ∧
  table_rows table (add data once).2 = table_rows table once ∧
  length (table_rows table once) = S (length (table_rows table w)).
Proof.
  intros Hop Hno (key & v & Hkey & Hv) once.
  destruct (checked_add_run table result_class add data w Hop)
    as [[Hdup _]|(_ & kwargs & _ & Hrun)]; [done|].
  assert (table_rows table once
          = table_rows table w
            ++ [materialise table (to_dict data)
                  (log_all (check_calls table (to_dict data)
                              (_unique_fields data)) w)]) as Hrows.
  { subst once. rewrite Hrun. apply table_rows_after_insert. }
  assert (has_duplicate table data once) as Hdup.
  { exists key, v, (materialise table (to_dict data)
                      (log_all (check_calls table (to_dict data)
                                  (_unique_fields data)) w)).
    repeat split; [done|done| |].
    - rewrite Hrows. apply elem_of_app. right. left.
    - eapply lookup_weaken; [exact Hv|apply materialise_includes]. }
  destruct (checked_add_run table result_class add data once Hop)
    as [[_ Hagain]|[Hno' _]]; [|done].
  rewrite Hagain. repeat split.
  by rewrite Hrows, length_app, Nat.add_1_r.
Qed.

(** X5: a user, or a file, that was inserted without a duplicate is found
    again by the very object that was inserted: the lookup filters on its
    first populated unique field, matches the stored row alone, and gives
    the record the insert returned. *)
Theorem add_then_get_returns_the_record
    (data e : entity) (f : string) (v : value) (w once : world) :
  has_unique_attrs data → first_populated data f v →
  (¬ has_duplicate "users" data w → add_user data w = (Ok e, once) →
   get_user data once = (Ok e, log (CSelect "users" f v) once)) ∧
  (¬ has_duplicate "files" data w → add_file data w = (Ok e, once) →
   get_file data once = (Ok e, log (CSelect "files" f v) once)).
Proof.
  intros Hall Hfirst.
  destruct (first_populated_in_dict data f v Hfirst) as [Hin Hv].
  split; intros Hno Hadd.
  - unfold add_user in Hadd. rewrite bind_run in Hadd.
    destruct (check_duplicates_run "users" data w) as [[Hdup _]|[_ Hrun]];
      [done|].
    rewrite Hrun in Hadd. simpl in Hadd. injection Hadd as Hnew <-.
    pose proof (get_obj_info_run "users" data f v
                  (log (CInsert "users" (to_dict data))
                     (bump_id (set_table "users"
                        (table_rows "users" w ++
                           [materialise "users" (to_dict data)
                              (log_all (check_calls "users" (to_dict data)
                                          (_unique_fields data)) w)])
                        (log_all (check_calls "users" (to_dict data)
                                    (_unique_fields data)) w))))
                  Hall Hfirst) as Hget.
    rewrite table_rows_after_insert in Hget.
    rewrite (filter_after_insert "users" data f v w _ Hno Hin Hv
               (materialise_includes _ _ _)) in Hget.
    unfold get_user. rewrite (bind_ok _ _ _ _ _ Hget). unfold lift.
    by rewrite Hnew.
  - unfold add_file in Hadd. rewrite bind_run in Hadd.
    destruct (check_duplicates_run "files" data w) as [[Hdup _]|[_ Hrun]];
      [done|].
    rewrite Hrun in Hadd. simpl in Hadd. injection Hadd as Hnew <-.
    pose proof (get_obj_info_run "files" data f v
                  (log (CInsert "files" (to_dict data))
                     (bump_id (set_table "files"
                        (table_rows "files" w ++
                           [materialise "files" (to_dict data)
                              (log_all (check_calls "files" (to_dict data)
                                          (_unique_fields data)) w)])
                        (log_all (check_calls "files" (to_dict data)
                                    (_unique_fields data)) w))))
                  Hall Hfirst) as Hget.
    rewrite table_rows_after_insert in Hget.
    rewrite (filter_after_insert "files" data f v w _ Hno Hin Hv
               (materialise_includes _ _ _)) in Hget.
    unfold get_file. rewrite (bind_ok _ _ _ _ _ Hget). unfold lift.
    by rewrite Hnew.
Qed.

(** *** Delete, then look up *)

Lemma filter_removed (P Q : row -> Prop) `{!∀ r, Decision (P r)}
    `{!∀ r, Decision (Q r)} (l : list row) (r : row) :
  filter P l = [r] → Q r → filter P (filter (fun x => ¬ Q x) l) = [].
Proof.
  intros Hone Hq.
  destruct (filter P (filter _ l)) as [|x l'] eqn:Hf; [done|].
  assert (x ∈ filter P (filter (fun x => ¬ Q x) l)) as Hx
    by (rewrite Hf; left).
  apply list_elem_of_filter in Hx as [Hp Hx].
  apply list_elem_of_filter in Hx as [Hnq Hx].
  assert (x ∈ filter P l) as Hx' by (by apply list_elem_of_filter).
  rewrite Hone in Hx'. apply list_elem_of_singleton in Hx' as ->. done.
Qed.

(** X6: once [delete_user] has removed the user its lookup found, the same
    object finds nothing: [get_user] and a second [delete_user] both raise
    [NoEntryFoundError] for the field the lookup filters on. *)
Theorem delete_user_then_lookup_finds_nothing
    (user full : entity) (f : string) (v user_id : value) (r : row)
    (w : world) :
  has_unique_attrs user → first_populated user f v →
  filter (row_matches f v) (table_rows "users" w) = [r] →
  new User r = Ok full →
  r !! "user_id" = Some user_id →
  let after := (delete_user user w).2 in
  (delete_user user w).1 = Ok (0%Z, "User deleted successfully") ∧
  (get_user user after).1 = Raise (NoEntryFoundError "users" f v) ∧
  (delete_user user after).1 = Raise (NoEntryFoundError "users" f v).
Proof.
  intros Hall Hfirst Hone Hfull Hid after.
  pose proof (new_getattr User r full "user_id" user_id Hfull Hid) as Hget.
  assert (delete_user user w =
    (Ok (0%Z, "User deleted successfully"),
     (delete_eq "users" "user_id" user_id
        (log (CSelect "users" f v) w)).2)) as Hrun.
  { unfold delete_user.
    rewrite (bind_ok _ _ _ _ _
               (get_user_run user f v r full w Hall Hfirst Hone Hfull)).
    by rewrite (bind_lift_ok _ _ _ _ Hget). }
  assert (filter (row_matches f v) (table_rows "users" after) = []) as Hnone.
  { subst after. rewrite Hrun. unfold table_rows at 1. simpl.
    rewrite lookup_insert_eq. simpl.
    by apply (filter_removed _ (row_matches "user_id" user_id) _ r). }
  pose proof (get_obj_info_run "users" user f v after Hall Hfirst) as Hinfo.
  rewrite Hnone in Hinfo.
  split; [by rewrite Hrun|]. split.
  - unfold get_user. by rewrite (bind_raise _ _ _ _ _ Hinfo).
  - unfold delete_user, get_user.
    by rewrite (bind_raise _ _ _ _ _ (bind_raise _ _ _ _ _ Hinfo)).
Qed.

(** *** Registering a voice message *)

(** How [register_voice_message] runs up to the insert of the file row. *)
Lemma register_voice_message_run filebytes message user_id message_id file w :
  assoc "user_id" (attrs message) = Some user_id → user_id ≠ VNone →
  assoc "message_id" (attrs message) = Some message_id →
  let path := upload_path user_id ".ogg" w in
  let uploaded :=
    log (CUpload bucket path filebytes "audio/ogg")
      (put_blob bucket path filebytes "audio/ogg" w) in
  new File (file_kwargs message_id "audio/ogg" path) = Ok file →
  register_voice_message filebytes message w =
    (let! _ := add_file file in ret tt) uploaded.
Proof.
  intros Huid Hne Hmid path uploaded Hfile. unfold register_voice_message.
  rewrite (bind_lift_ok _ _ _ user_id) by (unfold getattr; by rewrite Huid).
  destruct (decide (user_id = VNone)); [contradiction|].
  rewrite (bind_ok _ _ _ _ _
             (upload_file_supported filebytes (py_str user_id) "audio/ogg"
                ".ogg" w (or_introl (conj eq_refl eq_refl)))).
  rewrite (bind_lift_ok _ _ _ message_id)
    by (unfold getattr; by rewrite Hmid).
  by rewrite (bind_lift_ok _ _ _ _ Hfile).
Qed.

(** X9: [register_voice_message] uploads before it checks for duplicates.
    When the file record collides with a stored row it raises
    [DuplicateEntryError] with the payload already in the bucket under
    the new path and no row added to [files]: the upload is not undone. *)
Theorem register_voice_message_duplicate_leaves_blob
    (filebytes : list byte) (message file : entity)
    (user_id message_id : value) (w : world) :
  assoc "user_id" (attrs message) = Some user_id → user_id ≠ VNone →
  assoc "message_id" (attrs message) = Some message_id →
  let path := upload_path user_id ".ogg" w in
  new File (file_kwargs message_id "audio/ogg" path) = Ok file →
  has_duplicate "files" file w →
  let after := (register_voice_message filebytes message w).2 in
  (register_voice_message filebytes message w).1 = Raise DuplicateEntryError ∧
  storage after !! (bucket, path) = Some (filebytes, "audio/ogg") ∧
  table_rows "files" after = table_rows "files" w ∧
  CUpload bucket path filebytes "audio/ogg" ∈ calls after.
Proof.
  intros Huid Hne Hmid path Hfile Hdup after. subst after.
  rewrite (register_voice_message_run filebytes message user_id message_id
             file w Huid Hne Hmid Hfile).
  fold path. clearbody path. rewrite bind_run.
  destruct (checked_add_run "files" (fun _ => File) add_file file
              (log (CUpload bucket path filebytes "audio/ogg")
                 (put_blob bucket path filebytes "audio/ogg" w)))
    as [[_ Hrun]|[Hno _]];
    [unfold checked_add_ops; do 2 right; left| |exact (False_ind _ (Hno Hdup))].
  rewrite Hrun. cbn [fst snd].
  split; [reflexivity|]. split; [|split].
  - cbn [storage log_all log put_blob]. apply lookup_insert_eq.
  - reflexivity.
  - cbn [calls log_all log put_blob].
    apply elem_of_app. left. apply elem_of_app. right. left.
Qed.

(** X10: when the file record collides with nothing,
    [register_voice_message] leaves the payload in the bucket under the
    new path and one more row in [files], which records that path, the
    content type [audio/ogg] and the message identifier; it returns
    nothing, provided the [File] class declares the stored columns. *)
Theorem register_voice_message_stores_blob_and_row
    (filebytes : list byte) (message file : entity)
    (user_id message_id : value) (w : world) :
  assoc "user_id" (attrs message) = Some user_id → user_id ≠ VNone →
  assoc "message_id" (attrs message) = Some message_id →
  let path := upload_path user_id ".ogg" w in
  new File (file_kwargs message_id "audio/ogg" path) = Ok file →
  ¬ has_duplicate "files" file w →
  let after := (register_voice_message filebytes message w).2 in
  storage after !! (bucket, path) = Some (filebytes, "audio/ogg") ∧
  ∃ stored,
    table_rows "files" after = table_rows "files" w ++ [stored] ∧
    stored !! "blob_path" = Some (VStr path) ∧
    stored !! "mime_type" = Some (VStr "audio/ogg") ∧
    (message_id ≠ VNone → stored !! "message_id" = Some message_id) ∧
    (map_Forall (fun k _ => k ∈ fields_of File) stored →
     (register_voice_message filebytes message w).1 = Ok tt).
Proof.
  intros Huid Hne Hmid path Hfile Hno after. subst after.
  rewrite (register_voice_message_run filebytes message user_id message_id
             file w Huid Hne Hmid Hfile).
  fold path. clearbody path. rewrite bind_run.
  set (uploaded := log (CUpload bucket path filebytes "audio/ogg")
                     (put_blob bucket path filebytes "audio/ogg" w)).
  destruct (checked_add_run "files" (fun _ => File) add_file file uploaded)
    as [[Hdup _]|(_ & kwargs & Hkw & Hrun)];
    [unfold checked_add_ops; do 2 right; left
    |exact (False_ind _ (Hno Hdup))|].
  rewrite Hrun. clear Hrun.
  set (stored := materialise "files" (to_dict file) _) in *.
  assert (to_dict file ⊆ stored) as Hsub by apply materialise_includes.
  assert (∀ k x, file_kwargs message_id "audio/ogg" path !! k = Some x →
                 x ≠ VNone → stored !! k = Some x) as Hcol.
  { intros k x Hk Hx. eapply lookup_weaken; [|exact Hsub].
    rewrite (to_dict_new _ _ _ Hfile). apply map_lookup_filter_Some.
    split; [exact Hk|exact Hx]. }
  clearbody stored.
  split.
  - destruct (new File kwargs); cbn [fst snd ret];
      cbn [storage log bump_id set_table log_all]; subst uploaded;
      cbn [storage log put_blob]; apply lookup_insert_eq.
  - exists stored. split; [|split; [|split; [|split]]].
    + destruct (new File kwargs); cbn [fst snd ret]; unfold table_rows;
        cbn [tables log bump_id set_table]; by rewrite lookup_insert_eq.
    + apply Hcol; [reflexivity|discriminate].
    + apply Hcol; [reflexivity|discriminate].
    + intros Hmid'. apply Hcol; [reflexivity|exact Hmid'].
    + intros Hdecl.
      assert (∃ e, new File kwargs = Ok e) as [e ->]; [|reflexivity].
      apply new_total. destruct Hkw as [->| ->]; [exact Hdecl|].
      intros k x [Hk _]%map_lookup_filter_Some. exact (Hdecl k x Hk).
Qed.

(** *** Registering a draft and reading it back *)

Lemma assoc_set_field obj f v :
  is_Some (assoc f (attrs obj)) → assoc f (attrs (set_field obj f v)) = Some v.
Proof.
  unfold set_field. simpl.
  induction (attrs obj) as [|[k x] l IH]; simpl; [by intros [? ?]|].
  destruct (decide (k = f)) as [->|Hne]; simpl.
  - by destruct (decide (f = f)).
  - intros H. destruct (decide (k = f)); [contradiction|]. by apply IH.
Qed.

(** X11: [register_draft] uploads the PDF, sets the draft's [blob_path] to
    the new path and inserts the draft; the record built from the stored
    row then leads [download_draft] back to exactly the bytes that were
    registered. *)
Theorem register_draft_then_download_returns_bytes
    (draft : entity) (pdf_bytes : list byte) (user_id : value) (w : world) :
  assoc "user_id" (attrs draft) = Some user_id → user_id ≠ VNone →
  is_Some (assoc "blob_path" (attrs draft)) →
  let path := upload_path user_id ".pdf" w in
  let sent := to_dict (set_field draft "blob_path" (VStr path)) in
  let stored := materialise "drafts" sent w in
  let after := (register_draft draft pdf_bytes w).2 in
  (register_draft draft pdf_bytes w).1 = new Draft stored ∧
  stored !! "blob_path" = Some (VStr path) ∧
  table_rows "drafts" after = table_rows "drafts" w ++ [stored] ∧
  ∀ saved, new Draft stored = Ok saved →
           download_draft saved after = (Returns pdf_bytes, after).
Proof.
  intros Huid Hne Hblob path sent stored after.
  assert (stored !! "blob_path" = Some (VStr path)) as Hpath.
  { eapply lookup_weaken; [|apply materialise_includes].
    apply to_dict_lookup_populated; [|discriminate].
    by apply assoc_set_field. }
  assert (register_draft draft pdf_bytes w =
    (new Draft stored,
     log (CInsert "drafts" sent)
       (bump_id (set_table "drafts" (table_rows "drafts" w ++ [stored])
          (log (CUpload bucket path pdf_bytes "application/pdf")
             (put_blob bucket path pdf_bytes "application/pdf" w)))))) as Hrun.
  { unfold register_draft.
    rewrite (bind_lift_ok _ _ _ user_id) by (unfold getattr; by rewrite Huid).
    destruct (decide (user_id = VNone)); [contradiction|].
    rewrite (bind_ok _ _ _ _ _
               (upload_file_supported pdf_bytes (py_str user_id)
                  "application/pdf" ".pdf" w (or_intror (conj eq_refl eq_refl)))).
    fold path. fold sent. reflexivity. }
  subst after. rewrite Hrun. clearbody path stored. cbn [fst snd].
  split; [reflexivity|]. split; [exact Hpath|]. split.
  - unfold table_rows at 1. cbn [tables log bump_id set_table].
    by rewrite lookup_insert_eq.
  - intros saved Hsaved. unfold download_draft.
    rewrite (new_getattr Draft stored saved "blob_path" (VStr path)
               Hsaved Hpath).
    destruct (decide (VStr path = VNone)); [discriminate|].
    unfold storage_download. cbn [py_str storage log bump_id set_table put_blob].
    by rewrite lookup_insert_eq.
Qed.

(** *** System messages *)

(** X12: [get_system_message] sends one select on [full_message_name] and
    nothing else.  With no matching row it raises [NoEntryFoundError],
    which names [col_name] as the key although the search was on
    [full_message_name]; with more than one it raises its [ValueError];
    with exactly one it returns that row's [col_name] column, or raises
    [KeyError] when the row has no such column. *)
Theorem get_system_message_outcomes
    (msg_name col_name : string) (w : world) :
  let matching :=
    filter (row_matches "full_message_name" (VStr msg_name))
      (table_rows "system_messages" w) in
  (get_system_message msg_name col_name w).2
  = log (CSelect "system_messages" "full_message_name" (VStr msg_name)) w ∧
  (matching = [] →
   (get_system_message msg_name col_name w).1
   = Throws (Client (NoEntryFoundError "system_messages" col_name
                       (VStr msg_name)))) ∧
  (1 < length matching →
   (get_system_message msg_name col_name w).1
   = Throws (ManySystemMessages col_name msg_name)) ∧
  (∀ r, matching = [r] →
        (get_system_message msg_name col_name w).1
        = match r !! col_name with
          | Some v => Returns v
          | None => Throws (KeyError col_name)
          end).
Proof.
  intros matching. unfold get_system_message, select_eq. fold matching.
  destruct matching as [|r [|r' l]]; cbn [length].
  - destruct (decide ([] = [])) as [_|Hn]; [|by destruct Hn].
    split; [reflexivity|]. split; [reflexivity|].
    split; [intros; lia|discriminate].
  - destruct (decide ([r] = [])); [discriminate|].
    destruct (decide (1 < 1)); [lia|].
    split; [by destruct (r !! col_name)|]. split; [discriminate|].
    split; [intros; lia|].
    intros r0 [= <-]. by destruct (r !! col_name).
  - destruct (decide (r :: r' :: l = [])); [discriminate|].
    destruct (decide (1 < S (S (length l)))); [|lia].
    split; [reflexivity|]. split; [discriminate|].
    split; [reflexivity|discriminate].
Qed.

(** *** The rows of one user *)

Lemma decode_all_Forall2 c data es :
  decode_all c data = Ok es → Forall2 (fun r e => new c r = Ok e) data es.
Proof.
  revert es. induction data as [|r data IH]; simpl; intros es.
  - intros [= <-]. constructor.
  - destruct (new c r) as [e|] eqn:He; simpl; [|discriminate].
    destruct (decode_all c data) as [es'|]; simpl; [|discriminate].
    intros [= <-]. constructor; [exact He|by apply IH].
Qed.

Lemma decode_all_total c data :
  Forall (map_Forall (fun k _ => k ∈ fields_of c)) data →
  ∃ es, decode_all c data = Ok es.
Proof.
  induction 1 as [|r data Hr _ [es IH]]; simpl; [by eexists|].
  destruct (new_total c r Hr) as [e ->]. simpl. rewrite IH. simpl.
  by eexists.
Qed.

(** How a listing runs once the user is found. *)
Lemma listing_run table c get user full f v user_id w :
  (table, c, get) ∈ listing_ops →
  finds_user user full f v w →
  getattr full "user_id" = Ok user_id → user_id ≠ VNone →
  ∃ column,
    get user w =
      (decode_all c
         (order_by column false
            (filter (row_matches "user_id" user_id) (table_rows table w))),
       log (CSelect table "user_id" user_id) (log (CSelect "users" f v) w)).
Proof.
  intros Hop (Hall & Hfirst & r & Hone & Hfull) Hid Hne.
  pose proof (get_user_run user f v r full w Hall Hfirst Hone Hfull) as Hget.
  unfold listing_ops in Hop. rewrite !elem_of_cons, elem_of_nil in Hop.
  destruct Hop as [H|[H|[H|[]]]]; simplify_eq;
    [exists "timestamp"; unfold get_all_user_messages
    |exists "created_at"; unfold get_user_addresses
    |exists "created_at"; unfold get_user_drafts];
    rewrite (bind_ok _ _ _ _ _ Hget), (bind_lift_ok _ _ _ _ Hid);
    try (destruct (decide (user_id = VNone)); [contradiction|]);
    reflexivity.
Qed.

(** X13: once the user is found, [get_all_user_messages],
    [get_user_addresses] and [get_user_drafts] send one more select, on the
    user's identifier.  Whatever order the server returns the rows in, the
    list they give has one record for each row of that user, each built
    from such a row, and they do give a list when the class declares the
    columns of those rows. *)
Theorem listing_returns_the_rows_of_the_user
    (table : string) (c : class) (get : entity -> M (list entity))
    (user full : entity) (f : string) (v user_id : value) (w : world) :
  (table, c, get) ∈ listing_ops →
  finds_user user full f v w →
  getattr full "user_id" = Ok user_id → user_id ≠ VNone →
  (∀ column desc l, order_by column desc l ≡ₚ l) →
  let mine := filter (row_matches "user_id" user_id) (table_rows table w) in
  calls (get user w).2
  = calls w ++ [CSelect "users" f v; CSelect table "user_id" user_id] ∧
  (∀ es, (get user w).1 = Ok es →
         length es = length mine ∧
         Forall (fun e => ∃ r, r ∈ mine ∧ new c r = Ok e) es) ∧
  (Forall (map_Forall (fun k _ => k ∈ fields_of c)) mine →
   ∃ es, (get user w).1 = Ok es).
Proof.
  intros Hop Hfinds Hid Hne Hperm mine.
  destruct (listing_run table c get user full f v user_id w Hop Hfinds
              Hid Hne) as [column Hrun].
  fold mine in Hrun. rewrite Hrun. cbn [fst snd].
  split; [|split].
  - cbn [calls log]. by rewrite <- app_assoc.
  - intros es Hes. apply decode_all_Forall2 in Hes. split.
    + rewrite <- (Forall2_length _ _ _ Hes). by rewrite Hperm.
    + apply Forall_forall. intros e He.
      destruct (proj1 (list_elem_of_lookup _ _) He) as [i Hi].
      destruct (Forall2_lookup_r _ _ _ _ _ Hes Hi) as (r & Hr & Hnew).
      exists r. split; [|exact Hnew].
      rewrite <- (Hperm column false mine).
      apply list_elem_of_lookup. by exists i.
  - intros Hdecl. apply decode_all_total.
    apply Forall_forall. intros r Hr. rewrite Forall_forall in Hdecl.
    apply Hdecl. by rewrite <- (Hperm column false mine).
Qed.

(** *** The last draft and the last message *)

(** X14: for a user that is found, [get_last_draft] answers [None] when
    the user has no draft, whereas [get_last_user_message] raises
    [NoEntryFoundError] when the user has no message; a draft or message
    that is returned is built from a row of that very user. *)
Theorem last_draft_is_optional_last_message_is_not
    (user full : entity) (f : string) (v user_id : value) (w : world) :
  finds_user user full f v w →
  getattr full "user_id" = Ok user_id → user_id ≠ VNone →
  (∀ column desc l, order_by column desc l ≡ₚ l) →
  let drafts := filter (row_matches "user_id" user_id) (table_rows "drafts" w) in
  let messages :=
    filter (row_matches "user_id" user_id) (table_rows "messages" w) in
  (drafts = [] → (get_last_draft user w).1 = Ok None) ∧
  (messages = [] →
   (get_last_user_message user w).1
   = Raise (NoEntryFoundError "messages" "user_id" (VStr (py_str user_id)))) ∧
  (∀ d, (get_last_draft user w).1 = Ok (Some d) →
        ∃ r, r ∈ drafts ∧ new Draft r = Ok d) ∧
  (∀ m, (get_last_user_message user w).1 = Ok m →
        ∃ r, r ∈ messages ∧ new Message r = Ok m).
Proof.
  intros Hfinds Hid Hne Hperm drafts messages.
  destruct (listing_run "drafts" Draft get_user_drafts user full f v user_id w)
    as [column Hdrafts]; [unfold listing_ops; do 2 right; left|done..|].
  fold drafts in Hdrafts.
  assert (get_last_user_message user w =
    (match order_by "timestamp" true messages with
     | [] => Raise (NoEntryFoundError "messages" "user_id"
                      (VStr (py_str user_id)))
     | r :: _ => new Message r
     end,
     log (CSelect "messages" "user_id" user_id)
       (log (CSelect "users" f v) w))) as Hlast.
  { destruct Hfinds as (Hall & Hfirst & r & Hone & Hfull).
    unfold get_last_user_message.
    rewrite (bind_ok _ _ _ _ _
               (get_user_run user f v r full w Hall Hfirst Hone Hfull)).
    rewrite (bind_lift_ok _ _ _ _ Hid). rewrite bind_run.
    unfold select_eq_order.
    change (table_rows "messages" (log (CSelect "users" f v) w))
      with (table_rows "messages" w).
    fold messages.
    destruct (order_by "timestamp" true messages); [|reflexivity].
    by destruct (decide (user_id = VNone)). }
  unfold get_last_draft. rewrite bind_run, Hdrafts, Hlast. cbn [fst].
  split; [|split; [|split]].
  - intros Hnone. rewrite Hnone.
    rewrite (proj1 (Permutation_nil_r _) (Hperm column false [])).
    reflexivity.
  - intros Hnone. rewrite Hnone.
    by rewrite (proj1 (Permutation_nil_r _) (Hperm "timestamp" true [])).
  - intros d Hd.
    destruct (decode_all Draft (order_by column false drafts)) as [es|] eqn:Hes;
      [|discriminate].
    cbn in Hd. injection Hd as Hd.
    apply decode_all_Forall2 in Hes. apply last_Some in Hd as [es' ->].
    apply Forall2_app_inv_r in Hes as (rs & rs' & _ & Hlastrow & Heq).
    apply Forall2_cons_inv_r in Hlastrow as (r & ? & Hnew & _ & ->).
    exists r. split; [|exact Hnew].
    rewrite <- (Hperm column false drafts), Heq.
    apply elem_of_app. right. left.
  - intros m Hm.
    destruct (order_by "timestamp" true messages) as [|r l] eqn:Hord;
      [discriminate|].
    exists r. split; [|exact Hm].
    rewrite <- (Hperm "timestamp" true messages), Hord. left.
Qed.

End Client.

(** ** The client on the sample data *)

Lemma user_with_email_attrs email : has_unique_attrs (user_with_email email).
Proof. unfold has_unique_attrs. simpl. repeat constructor; by eexists. Qed.

Lemma user_with_email_first email :
  first_populated (user_with_email email) "email" (VStr email).
Proof.
  exists ["user_id"], ["phone_number"; "telegram_id"].
  repeat split; [by constructor|done].
Qed.

(** A voice memo, a PDF and a PNG uploaded by user [u1]. *)
Lemma upload_file_suffix_or_unsupported_witness :
  (∃ stem, (upload_file "voice" [x00] "u1" "audio/ogg" users_world).1
           = Ok (stem +:+ ".ogg")) ∧
  (∃ stem, (upload_file "voice" [x00] "u1" "application/pdf" users_world).1
           = Ok (stem +:+ ".pdf")) ∧
  upload_file "voice" [x00] "u1" "image/png" users_world
  = (Raise (ValueError (MimeNotSupported "image/png")), users_world).
Proof.
  split; [|split].
  - by apply (upload_file_suffix_or_unsupported
                "voice" [x00] "u1" "audio/ogg" users_world).
  - by apply (upload_file_suffix_or_unsupported
                "voice" [x00] "u1" "application/pdf" users_world).
  - by apply (upload_file_suffix_or_unsupported
                "voice" [x00] "u1" "image/png" users_world).
Defined.

(** A voice memo uploaded at 14:05:30 local time. *)
Lemma upload_file_returns_local_time_path_witness :
  (upload_file "voice" [x00] "u1" "audio/ogg" users_world).1
  = Ok "memos/u1/2024-03-07_14-05-30.ogg".
Proof.
  destruct (upload_file_returns_local_time_path
              "voice" [x00] "u1" "audio/ogg" users_world)
    as (suffix & path & [[_ ->]|[Hm _]] & -> & ->); [by left|done|done].
Defined.

(** C6 as stated fails: with the local clock at 14:05:30 and the UTC clock
    at 12:05:30 the returned path carries the local time, not the UTC
    time. *)
Lemma upload_file_path_not_utc :
  (upload_file "voice" [x00] "u1" "audio/ogg" users_world).1
  = Ok "memos/u1/2024-03-07_14-05-30.ogg" ∧
  (upload_file "voice" [x00] "u1" "audio/ogg" users_world).1
  ≠ Ok ("memos/u1/" +:+ strftime_path (utc_clock users_world) +:+ ".ogg").
Proof. split; [reflexivity|]. vm_compute. discriminate. Qed.

(** An unknown e-mail address, and one that two stored users share. *)
Lemma lookup_not_found_or_ambiguous_witness :
  (outcome (get_user sample_fields sample_unique
              (user_with_email "zed@example.com")) users_world).1
  = Some (NoEntryFoundError "users" "email" (VStr "zed@example.com")) ∧
  (outcome (get_user sample_fields sample_unique
              (user_with_email "ann@example.com")) twins_world).1
  = Some (ValueError (MoreThanOne "email" (VStr "ann@example.com"))).
Proof.
  split.
  - apply (lookup_not_found_or_ambiguous sample_fields sample_unique
             "users" (fun obj => outcome (get_user _ _ obj))
             (user_with_email "zed@example.com") "email"
             (VStr "zed@example.com") users_world);
      [left|apply user_with_email_attrs|apply user_with_email_first|].
    by vm_compute.
  - apply (lookup_not_found_or_ambiguous sample_fields sample_unique
             "users" (fun obj => outcome (get_user _ _ obj))
             (user_with_email "ann@example.com") "email"
             (VStr "ann@example.com") twins_world);
      [left|apply user_with_email_attrs|apply user_with_email_first|].
    vm_compute. lia.
Defined.

(** A user known by e-mail only is looked up by e-mail; an order with no
    identifier is turned away. *)
Lemma lookup_filters_on_first_populated_witness :
  calls (outcome (get_user sample_fields sample_unique
                    (user_with_email "ann@example.com")) users_world).2
  = [CSelect "users" "email" (VStr "ann@example.com")] ∧
  outcome (get_order
             {| cls := Order; attrs := [("order_id", VNone)];
                _unique_fields := ["order_id"] |}) orders_world
  = (Some (ValueError NoUniqueFields), orders_world).
Proof.
  split.
  - apply (lookup_filters_on_first_populated sample_fields sample_unique
             "users" (fun obj => outcome (get_user _ _ obj))
             (user_with_email "ann@example.com") users_world);
      [left|apply user_with_email_attrs|apply user_with_email_first].
  - apply (lookup_filters_on_first_populated sample_fields sample_unique
             "orders" (fun obj => outcome (get_order obj)));
      [unfold lookup_ops; do 4 right; left| |];
      repeat constructor; by eexists.
Defined.

Lemma order_7_attrs : has_unique_attrs order_7.
Proof. unfold has_unique_attrs. simpl. repeat constructor; by eexists. Qed.

Lemma order_7_first : first_populated order_7 "order_id" (VInt 7).
Proof. exists [], []. by repeat split. Qed.

(** Looking up the stored order 7. *)
Lemma get_order_discards_row_witness :
  _get_obj_info "orders" order_7 orders_world
  = (Ok order_7_row, log (CSelect "orders" "order_id" (VInt 7)) orders_world) ∧
  get_order order_7 orders_world
  = (Ok tt, log (CSelect "orders" "order_id" (VInt 7)) orders_world).
Proof.
  apply (get_order_discards_row order_7 "order_id" (VInt 7) order_7_row
           orders_world);
    [apply order_7_attrs|apply order_7_first|by vm_compute].
Defined.

Lemma order_7_collides : has_duplicate "orders" order_7 orders_world.
Proof.
  exists "order_id", (VInt 7), order_7_row.
  split; [left|]. split; [by vm_compute|]. split; [|by vm_compute].
  unfold table_rows, orders_world, world_of. simpl.
  rewrite lookup_insert_eq. left.
Qed.

(** Adding an order whose identifier is already stored. *)
Lemma check_duplicates_raises_or_none_witness :
  (add_order sample_pk order_7 orders_world).1 = Raise DuplicateEntryError.
Proof.
  apply (check_duplicates_raises_or_none sample_pk "orders" order_7 order_7
           orders_world).
  - unfold order_required. repeat constructor; by eexists.
  - apply order_7_collides.
Defined.

(** C4 as stated fails: deleting a stored user removes the row, and what
    comes back is the pair with status [0], not a count of at least 1. *)
Lemma delete_user_returns_status_zero :
  (delete_user sample_fields sample_unique
     (user_with_email "ann@example.com") users_world).1
  = Ok (0%Z, "User deleted successfully") ∧
  table_rows "users"
    (delete_user sample_fields sample_unique
       (user_with_email "ann@example.com") users_world).2
  = [bob_row] ∧
  ¬ (1 ≤ 0)%Z.
Proof. split; [by vm_compute|]. split; [by vm_compute|lia]. Qed.

(** Deleting by e-mail: an unknown address, and a stored one. *)
Lemma delete_not_found_or_done_witness :
  (_delete_entry (user_with_email "zed@example.com") (Some "email")
     users_world).1
  = Raise (NoEntryFoundError "users" "email" (VStr "zed@example.com")) ∧
  (_delete_entry (user_with_email "ann@example.com") (Some "email")
     users_world).1
  = Ok 1 ∧
  (delete_user sample_fields sample_unique
     (user_with_email "zed@example.com") users_world).1
  = Raise (NoEntryFoundError "users" "email" (VStr "zed@example.com")).
Proof.
  destruct (delete_not_found_or_done sample_fields sample_unique)
    as [Hentry Huser].
  split; [|split].
  - apply (Hentry (user_with_email "zed@example.com") (Some "email")
             "email" (VStr "zed@example.com") users_world);
      [split; [done|by left]|by vm_compute].
  - apply (Hentry (user_with_email "ann@example.com") (Some "email")
             "email" (VStr "ann@example.com") users_world);
      [split; [done|by left]|by vm_compute].
  - apply (Huser (user_with_email "zed@example.com") "email"
             (VStr "zed@example.com") users_world);
      [apply user_with_email_attrs|apply user_with_email_first|by vm_compute].
Defined.

(** C1 as stated fails for [update_message]: the update differs from the
    stored message in one field, yet the only requests are the select and
    the update, and the changelog table stays empty. *)
Lemma update_message_writes_no_changelog :
  (get_message sample_fields sample_unique (message_5 (VStr "bye"))
     messages_world).1
  = Ok (message_5 (VStr "hello")) ∧
  find_different_fields (message_5 (VStr "hello")) (message_5 (VStr "bye"))
  = ["message_body"] ∧
  calls (update_message sample_fields sample_unique
           (message_5 (VStr "bye")) (message_5 (VStr "bye"))
           messages_world).2
  = [CSelect "messages" "message_id" (VInt 5);
     CUpdate "messages" (to_dict (message_5 (VStr "bye")))
       "message_id" (VInt 5)] ∧
  table_rows "changelog"
    (update_message sample_fields sample_unique
       (message_5 (VStr "bye")) (message_5 (VStr "bye")) messages_world).2
  = [].
Proof. repeat split; by vm_compute. Qed.

(** C5 as stated fails for [update_message]: with an update equal to the
    stored message it still sends the update and reports a performed
    update. *)
Lemma update_message_unchanged_still_writes :
  (get_message sample_fields sample_unique (message_5 (VStr "hello"))
     messages_world).1
  = Ok (message_5 (VStr "hello")) ∧
  update_message sample_fields sample_unique
    (message_5 (VStr "hello")) (message_5 (VStr "hello")) messages_world
  = (Ok (0%Z, "Message updated successfully"),
     log (CUpdate "messages" (to_dict (message_5 (VStr "hello")))
            "message_id" (VInt 5))
       (set_table "messages" [hello_row]
          (log (CSelect "messages" "message_id" (VInt 5)) messages_world))).
Proof. split; by vm_compute. Qed.

(** C2 as stated fails for [add_draft]: the new draft collides with a
    stored one on a unique field, yet no [DuplicateEntryError] is raised
    and a second row is inserted. *)
Lemma add_draft_inserts_duplicate :
  has_duplicate "drafts" draft_at_memo drafts_world ∧
  (∃ e, (add_draft sample_fields sample_unique sample_pk draft_at_memo
           drafts_world).1 = Ok e) ∧
  length (table_rows "drafts"
            (add_draft sample_fields sample_unique sample_pk draft_at_memo
               drafts_world).2) = 2.
Proof.
  split; [|split].
  - exists "blob_path", (VStr "memos/u1/a.pdf"), memo_row.
    split; [right; left|]. split; [by vm_compute|]. split; [|by vm_compute].
    unfold table_rows, drafts_world, world_of. simpl.
    rewrite lookup_insert_eq. left.
  - eexists. by vm_compute.
  - by vm_compute.
Qed.

(** Updating Ann with her stored record. *)
Lemma update_user_unchanged_is_noop_witness :
  update_user sample_fields sample_unique sample_pk
    (user_with_email "ann@example.com") ann_full users_world
  = (Ok (1%Z, "No fields were updated"),
     log (CSelect "users" "email" (VStr "ann@example.com")) users_world).
Proof.
  apply (update_user_unchanged_is_noop sample_fields sample_unique sample_pk
           (user_with_email "ann@example.com") ann_full ann_full
           "email" (VStr "ann@example.com") ann_row users_world);
    [apply user_with_email_attrs|apply user_with_email_first
    |by vm_compute|by vm_compute|done].
Defined.

(** Updating Ann's e-mail address and phone number: two changelog rows,
    then the update. *)
Lemma update_user_logs_each_change_witness :
  find_different_fields ann_full ann_update = ["email"; "phone_number"] ∧
  calls (update_user sample_fields sample_unique sample_pk
           (user_with_email "ann@example.com") ann_update users_world).2
  = [CSelect "users" "email" (VStr "ann@example.com");
     CInsert "changelog"
       (changelog_row "2024-03-07 12:05:30" (VInt 1) "email"
          (VStr "ann@example.com") (VStr "ann@example.org"));
     CInsert "changelog"
       (changelog_row "2024-03-07 12:05:30" (VInt 1) "phone_number"
          VNone (VStr "555"));
     CUpdate "users" (to_dict ann_update) "user_id" (VInt 1)] ∧
  length (table_rows "changelog"
            (update_user sample_fields sample_unique sample_pk
               (user_with_email "ann@example.com") ann_update
               users_world).2) = 2.
Proof.
  destruct (update_user_logs_each_change sample_fields sample_unique sample_pk
              (user_with_email "ann@example.com") ann_update ann_full
              "email" (VStr "ann@example.com") (VInt 1) ann_row users_world)
    as (_ & _ & Hcalls & stored & Hrows & _ & Hlen).
  - apply user_with_email_attrs.
  - apply user_with_email_first.
  - by vm_compute.
  - by vm_compute.
  - reflexivity.
  - unfold has_attrs. simpl. repeat constructor; by eexists.
  - unfold changelog_columns. simpl. repeat constructor.
  - split; [reflexivity|]. split; [exact Hcalls|].
    rewrite Hrows, length_app, Hlen. reflexivity.
Defined.

Lemma ann_collides :
  has_duplicate "users" (user_with_email "ann@example.com") users_world.
Proof.
  exists "email", (VStr "ann@example.com"), ann_row.
  split; [right; left|]. split; [by vm_compute|]. split; [|by vm_compute].
  unfold table_rows, users_world, world_of. simpl.
  rewrite lookup_insert_eq. left.
Qed.

Lemma cy_is_new :
  ¬ has_duplicate "users" (user_with_email "cy@example.com") users_world.
Proof.
  intros (key & v & r & Hkey & Hv & Hr & Hm).
  assert (key = "email" ∧ v = VStr "cy@example.com") as [-> ->].
  { simpl in Hkey. rewrite !elem_of_cons, elem_of_nil in Hkey.
    destruct Hkey as [->|[->|[->|[->|[]]]]]; vm_compute in Hv;
      by simplify_eq. }
  unfold table_rows, users_world, world_of in Hr. simpl in Hr.
  rewrite lookup_insert_eq in Hr. simpl in Hr.
  rewrite !elem_of_cons, elem_of_nil in Hr.
  destruct Hr as [->|[->|[]]]; by vm_compute in Hm.
Qed.

(** Adding a user with Ann's e-mail address, then one with a new address. *)
Lemma checked_add_duplicate_iff_witness :
  (add_user sample_fields sample_unique sample_pk
     (user_with_email "ann@example.com") users_world).1
  = Raise DuplicateEntryError ∧
  table_rows "users"
    (add_user sample_fields sample_unique sample_pk
       (user_with_email "ann@example.com") users_world).2
  = [ann_row; bob_row] ∧
  ∃ stored id,
    table_rows "users"
      (add_user sample_fields sample_unique sample_pk
         (user_with_email "cy@example.com") users_world).2
    = [ann_row; bob_row; stored] ∧
    stored !! "user_id" = Some id ∧ id ≠ VNone ∧
    ∀ e, (add_user sample_fields sample_unique sample_pk
            (user_with_email "cy@example.com") users_world).1 = Ok e →
         getattr e "user_id" = Ok id.
Proof.
  pose proof (checked_add_duplicate_iff sample_fields sample_unique sample_pk
                "users" (fun _ => User)
                (add_user sample_fields sample_unique sample_pk)) as Hadd.
  split; [|split].
  - apply (Hadd (user_with_email "ann@example.com") users_world);
      [left|apply ann_collides].
  - destruct (Hadd (user_with_email "ann@example.com") users_world)
      as (_ & Hw & _); [left|].
    rewrite (Hw ann_collides). by vm_compute.
  - destruct (Hadd (user_with_email "cy@example.com") users_world)
      as (_ & _ & Hnew); [left|].
    destruct (Hnew cy_is_new) as (stored & id & -> & _ & Hid & Hne & He & _).
    exists stored, id. by repeat split.
Defined.

(** ** The further operations on the sample data *)

Lemma sample_order_permutation column desc (l : list row) :
  sample_order column desc l ≡ₚ l.
Proof. destruct desc; [apply reverse_Permutation|done]. Qed.

Lemma ann_found_in_chat :
  finds_user sample_fields sample_unique
    (user_with_email "ann@example.com") ann_full
    "email" (VStr "ann@example.com") chat_world.
Proof.
  split; [apply user_with_email_attrs|].
  split; [apply user_with_email_first|].
  exists ann_row. split; by vm_compute.
Qed.

(** An address without a user, and a draft without a path. *)
Lemma missing_identifier_stops_before_any_call_witness :
  add_address sample_fields sample_unique sample_pk
    {| cls := Address; attrs := [("address_id", VNone); ("user_id", VNone)];
       _unique_fields := ["address_id"] |} addresses_world
  = (Raise (ValueError (MissingField "Address" "user_id")), addresses_world) ∧
  download_draft "voice"
    {| cls := Draft; attrs := [("draft_id", VInt 3); ("blob_path", VNone)];
       _unique_fields := ["draft_id"] |} drafts_world
  = (Throws (Client (ValueError (MissingField "Draft" "blob_path"))),
     drafts_world).
Proof.
  destruct (missing_identifier_stops_before_any_call sample_fields
              sample_unique sample_pk "voice")
    as (Haddr & _ & _ & _ & _ & Hdown).
  split; [by apply Haddr|by apply Hdown].
Defined.

(** An order with a user but neither draft nor address: the draft is
    named. *)
Lemma add_order_names_first_missing_field_witness :
  add_order sample_pk order_without_draft orders_world
  = (Raise (ValueError (MissingField "Order" "draft_id")), orders_world).
Proof.
  apply (add_order_names_first_missing_field sample_pk order_without_draft
           ["user_id"] ["address_id"; "blob_path"] "draft_id" orders_world).
  - reflexivity.
  - repeat constructor. by exists (VInt 1).
  - reflexivity.
Defined.

(** Cy is added twice. *)
Lemma checked_add_twice_is_refused_witness :
  (add_user sample_fields sample_unique sample_pk
     (user_with_email "cy@example.com")
     (add_user sample_fields sample_unique sample_pk
        (user_with_email "cy@example.com") users_world).2).1
  = Raise DuplicateEntryError.
Proof.
  apply (checked_add_twice_is_refused sample_fields sample_unique sample_pk
           "users" (fun _ => User)
           (add_user sample_fields sample_unique sample_pk)
           (user_with_email "cy@example.com") users_world).
  - left.
  - apply cy_is_new.
  - exists "email", (VStr "cy@example.com"). split; [right; left|by vm_compute].
Defined.

(** Cy is added and then looked up: the lookup gives what the insert
    returned. *)
Lemma add_then_get_returns_the_record_witness :
  (get_user sample_fields sample_unique (user_with_email "cy@example.com")
     (add_user sample_fields sample_unique sample_pk
        (user_with_email "cy@example.com") users_world).2).1
  = (add_user sample_fields sample_unique sample_pk
       (user_with_email "cy@example.com") users_world).1.
Proof.
  destruct (add_user sample_fields sample_unique sample_pk
              (user_with_email "cy@example.com") users_world)
    as [res once] eqn:Hadd.
  assert (∃ e, res = Ok e) as [e ->].
  { assert ((add_user sample_fields sample_unique sample_pk
               (user_with_email "cy@example.com") users_world).1 = res) as H
      by (rewrite Hadd; reflexivity).
    vm_compute in H. rewrite <- H. eexists. reflexivity. }
  cbn [fst snd].
  rewrite (proj1 (add_then_get_returns_the_record sample_fields sample_unique
                    sample_pk (user_with_email "cy@example.com") e "email"
                    (VStr "cy@example.com") users_world once
                    (user_with_email_attrs _) (user_with_email_first _))
             cy_is_new Hadd).
  reflexivity.
Defined.

(** Ann is deleted and then looked up. *)
Lemma delete_user_then_lookup_finds_nothing_witness :
  (get_user sample_fields sample_unique (user_with_email "ann@example.com")
     (delete_user sample_fields sample_unique
        (user_with_email "ann@example.com") users_world).2).1
  = Raise (NoEntryFoundError "users" "email" (VStr "ann@example.com")).
Proof.
  apply (delete_user_then_lookup_finds_nothing sample_fields sample_unique
           (user_with_email "ann@example.com") ann_full "email"
           (VStr "ann@example.com") (VInt 1) ann_row users_world);
    [apply user_with_email_attrs|apply user_with_email_first
    |by vm_compute|by vm_compute|by vm_compute].
Defined.

(** Deleting an address that no row holds still reports success. *)
Lemma delete_address_succeeds_whatever_matched_witness :
  (delete_address (address_of_1 (VInt 4)) addresses_world).1
  = Ok (0%Z, "Address deleted successfully") ∧
  table_rows "addresses"
    (delete_address (address_of_1 (VInt 4)) addresses_world).2
  = table_rows "addresses" addresses_world.
Proof.
  destruct (delete_address_succeeds_whatever_matched
              (address_of_1 (VInt 4)) (VInt 4) addresses_world)
    as (Hok & _ & _ & Hsame); [reflexivity|discriminate|].
  split; [exact Hok|]. apply Hsame. by vm_compute.
Defined.

Lemma voice_file_built :
  new sample_fields sample_unique File
    (file_kwargs (VInt 5) "audio/ogg" (upload_path (VInt 1) ".ogg" files_world))
  = Ok voice_file.
Proof. by vm_compute. Qed.

Lemma voice_file_collides : has_duplicate "files" voice_file files_world.
Proof.
  exists "blob_path", (VStr "memos/1/2024-03-07_14-05-30.ogg"), voice_row.
  split; [right; left|]. split; [by vm_compute|]. split; [|by vm_compute].
  unfold table_rows, files_world, world_of. cbn [tables].
  rewrite lookup_insert_eq. left.
Qed.

(** A voice memo whose path is already in [files]: the memo stays in the
    bucket, the table stays as it was. *)
Lemma register_voice_message_duplicate_leaves_blob_witness :
  (register_voice_message sample_fields sample_unique sample_pk "voice"
     [x01; x02] (message_5 VNone) files_world).1
  = Raise DuplicateEntryError ∧
  storage
    (register_voice_message sample_fields sample_unique sample_pk "voice"
       [x01; x02] (message_5 VNone) files_world).2
  !! ("voice", upload_path (VInt 1) ".ogg" files_world)
  = Some ([x01; x02], "audio/ogg") ∧
  table_rows "files"
    (register_voice_message sample_fields sample_unique sample_pk "voice"
       [x01; x02] (message_5 VNone) files_world).2
  = table_rows "files" files_world.
Proof.
  destruct (register_voice_message_duplicate_leaves_blob sample_fields
              sample_unique sample_pk "voice" [x01; x02] (message_5 VNone)
              voice_file (VInt 1) (VInt 5) files_world)
    as (Hraise & Hblob & Hrows & _);
    [reflexivity|discriminate|reflexivity|exact voice_file_built
    |exact voice_file_collides|].
  split; [exact Hraise|]. split; [exact Hblob|exact Hrows].
Defined.

Lemma no_files_yet : ¬ has_duplicate "files" voice_file users_world.
Proof.
  intros (key & v & r & _ & _ & Hr & _).
  unfold table_rows, users_world, world_of in Hr. cbn [tables] in Hr.
  rewrite lookup_insert_ne in Hr by discriminate.
  rewrite lookup_empty in Hr. by apply elem_of_nil in Hr.
Qed.

(** A first voice memo: it is in the bucket, and [files] has its row. *)
Lemma register_voice_message_stores_blob_and_row_witness :
  storage
    (register_voice_message sample_fields sample_unique sample_pk "voice"
       [x01; x02] (message_5 VNone) users_world).2
  !! ("voice", upload_path (VInt 1) ".ogg" users_world)
  = Some ([x01; x02], "audio/ogg") ∧
  ∃ stored,
    table_rows "files"
      (register_voice_message sample_fields sample_unique sample_pk "voice"
         [x01; x02] (message_5 VNone) users_world).2
    = table_rows "files" users_world ++ [stored] ∧
    stored !! "blob_path"
    = Some (VStr (upload_path (VInt 1) ".ogg" users_world)).
Proof.
  destruct (register_voice_message_stores_blob_and_row sample_fields
              sample_unique sample_pk "voice" [x01; x02] (message_5 VNone)
              voice_file (VInt 1) (VInt 5) users_world)
    as (Hblob & stored & Hrows & Hpath & _);
    [reflexivity|discriminate|reflexivity|by vm_compute|exact no_files_yet|].
  split; [exact Hblob|]. exists stored. split; [exact Hrows|exact Hpath].
Defined.

(** A draft of user 1 is registered with a two-byte PDF and read back. *)
Lemma register_draft_then_download_returns_bytes_witness :
  ∃ saved,
    (register_draft sample_fields sample_unique sample_pk "voice"
       draft_at_memo [x25; x50] users_world).1 = Ok saved ∧
    download_draft "voice" saved
      (register_draft sample_fields sample_unique sample_pk "voice"
         draft_at_memo [x25; x50] users_world).2
    = (Returns [x25; x50],
       (register_draft sample_fields sample_unique sample_pk "voice"
          draft_at_memo [x25; x50] users_world).2).
Proof.
  destruct (register_draft_then_download_returns_bytes sample_fields
              sample_unique sample_pk "voice" draft_at_memo [x25; x50]
              (VInt 1) users_world)
    as (Hres & _ & _ & Hback);
    [reflexivity|discriminate|by eexists|].
  assert (∃ saved, (register_draft sample_fields sample_unique sample_pk
                      "voice" draft_at_memo [x25; x50] users_world).1
                   = Ok saved) as [saved Hsaved]
    by (eexists; vm_compute; reflexivity).
  exists saved. split; [exact Hsaved|].
  apply Hback. rewrite <- Hres. exact Hsaved.
Defined.

(** The welcome message: its English text, a column it does not have, and
    a message that does not exist. *)
Lemma get_system_message_outcomes_witness :
  (get_system_message "welcome" "en" system_world).1
  = Returns (VStr "Hello!") ∧
  (get_system_message "welcome" "fr" system_world).1
  = Throws (KeyError "fr") ∧
  (get_system_message "goodbye" "en" system_world).1
  = Throws (Client (NoEntryFoundError "system_messages" "en"
                      (VStr "goodbye"))).
Proof.
  split; [|split].
  - destruct (get_system_message_outcomes "welcome" "en" system_world)
      as (_ & _ & _ & Hone).
    rewrite (Hone welcome_row ltac:(vm_compute; reflexivity)).
    vm_compute. reflexivity.
  - destruct (get_system_message_outcomes "welcome" "fr" system_world)
      as (_ & _ & _ & Hone).
    rewrite (Hone welcome_row ltac:(vm_compute; reflexivity)).
    vm_compute. reflexivity.
  - destruct (get_system_message_outcomes "goodbye" "en" system_world)
      as (_ & Hnone & _).
    apply Hnone. by vm_compute.
Defined.

(** Ann's messages are listed after two selects. *)
Lemma listing_returns_the_rows_of_the_user_witness :
  calls (get_all_user_messages sample_fields sample_unique sample_order
           (user_with_email "ann@example.com") chat_world).2
  = [CSelect "users" "email" (VStr "ann@example.com");
     CSelect "messages" "user_id" (VInt 1)].
Proof.
  apply (listing_returns_the_rows_of_the_user sample_fields sample_unique
           sample_order "messages" Message
           (get_all_user_messages sample_fields sample_unique sample_order)
           (user_with_email "ann@example.com") ann_full "email"
           (VStr "ann@example.com") (VInt 1) chat_world);
    [left|exact ann_found_in_chat|reflexivity|discriminate
    |exact sample_order_permutation].
Defined.

Lemma bob_found_in_chat :
  finds_user sample_fields sample_unique
    (user_with_email "bob@example.com") bob_full
    "email" (VStr "bob@example.com") chat_world.
Proof.
  split; [apply user_with_email_attrs|].
  split; [apply user_with_email_first|].
  exists bob_row. split; by vm_compute.
Qed.

(** Bob has neither drafts nor messages: no last draft, and an error for
    the last message. *)
Lemma last_draft_is_optional_last_message_is_not_witness :
  (get_last_draft sample_fields sample_unique sample_order
     (user_with_email "bob@example.com") chat_world).1 = Ok None ∧
  (get_last_user_message sample_fields sample_unique sample_order
     (user_with_email "bob@example.com") chat_world).1
  = Raise (NoEntryFoundError "messages" "user_id" (VStr "2")).
Proof.
  destruct (last_draft_is_optional_last_message_is_not sample_fields
              sample_unique sample_order (user_with_email "bob@example.com")
              bob_full "email" (VStr "bob@example.com") (VInt 2) chat_world)
    as (Hdraft & Hmessage & _);
    [exact bob_found_in_chat|reflexivity|discriminate
    |exact sample_order_permutation|].
  split; [apply Hdraft; by vm_compute|apply Hmessage; by vm_compute].
Defined.
